(** * Swedish name-day service: the table extractor and the lookup routes

    A shallow embedding of [fetch.py] (the extractor [parse_tables] with its
    three module tables) and of the two routes of [main.py] that the
    specification talks about ([get_date] and [refresh_namedays]).

    - Python [str] values are lists of Unicode code points.
    - Python exceptions are the [Raise] branch of an error monad.
    - The dictionaries [MONTH_MAP], [result] and [NAMEDAYS] are finite maps,
      the two override sets are finite sets.
    - The document tree is the one [BeautifulSoup(html, "html.parser")]
      hands to [parse_tables]; the tokenizer that builds it is third-party
      code, so the embedding starts from the tree. *)

From Stdlib Require Import ZArith Lia DecimalN.
From Equations Require Import Equations.
From stdpp Require Import gmap strings list fin_maps.

Open Scope N_scope.

(** ** Python strings *)

Abbreviation codepoint := N.
Abbreviation pystr := (list N).

(** An ASCII literal as a Python string. *)
Definition py (s : string) : pystr :=
  Ascii.N_of_ascii <$> String.list_ascii_of_string s.

(** The parts of the interpreter's Unicode database and settings that the
    program reaches through [str.lower] and [int]: the case mapping, the
    decimal value of a character, and [sys.int_max_str_digits].  They are
    taken as they come; only the ASCII rows of the decimal table are
    fixed. *)
Class PyRuntime := {
  str_lower : pystr → pystr;
  unicode_decimal : codepoint → option Z;
  int_max_str_digits : nat;
  unicode_decimal_ascii c :
    c < 128 →
    unicode_decimal c = if decide (48 ≤ c ≤ 57) then Some (Z.of_N c - 48)%Z else None
}.

(** [Py_UNICODE_ISSPACE]: the characters [str.split()], [str.strip()],
    [int] and the regex class [\s] treat as white space. *)
Definition isspace (c : codepoint) : bool :=
  (9 <=? c) && (c <=? 13) || (28 <=? c) && (c <=? 32)
  || (c =? 0x85) || (c =? 0xA0) || (c =? 0x1680)
  || (0x2000 <=? c) && (c <=? 0x200A)
  || (c =? 0x2028) || (c =? 0x2029) || (c =? 0x202F) || (c =? 0x205F)
  || (c =? 0x3000).

Fixpoint dropwhile (p : codepoint → bool) (s : pystr) : pystr :=
  match s with
  | [] => []
  | c :: r => if p c then dropwhile p r else s
  end.

Definition lstrip (s : pystr) : pystr := dropwhile isspace s.
Definition rstrip (s : pystr) : pystr := reverse (dropwhile isspace (reverse s)).
(** [s.strip()] *)
Definition strip (s : pystr) : pystr := rstrip (lstrip s).

(** [s.split()]: the maximal runs of non-space characters. [word] is the
    run being read. *)
Fixpoint split_words (word s : pystr) : list pystr :=
  match s with
  | [] => match word with [] => [] | _ => [word] end
  | c :: r =>
      if isspace c
      then match word with [] => split_words [] r | _ => word :: split_words [] r end
      else split_words (word ++ [c]) r
  end.
Definition split (s : pystr) : list pystr := split_words [] s.

(** [s.split(sep)] for a one-character separator: empty fields are kept. *)
Fixpoint split_on (sep : codepoint) (s : pystr) : list pystr :=
  match s with
  | [] => [[]]
  | c :: r =>
      if decide (c = sep) then [] :: split_on sep r
      else match split_on sep r with
           | w :: ws => (c :: w) :: ws
           | [] => [[c]]
           end
  end.

(** [Some rest] when [s] starts with [prefix], [rest] being what follows. *)
Fixpoint startswith (s prefix : pystr) : option pystr :=
  match prefix, s with
  | [], _ => Some s
  | p :: ps, c :: r => if decide (p = c) then startswith r ps else None
  | _ :: _, [] => None
  end.

(** [s.replace(old, new)]: every occurrence of [old], leftmost first,
    without overlap. *)
Equations? replace (old new s : pystr) : pystr by wf (length s) lt :=
  replace [] new s := new ++ (s ≫= λ c, c :: new);
  replace (o :: old) new [] := [];
  replace (o :: old) new (c :: r)
    with Equations.Prop.Logic.inspect (startswith (c :: r) (o :: old)) := {
    | exist _ (Some rest) H := new ++ replace (o :: old) new rest
    | exist _ None _ := c :: replace (o :: old) new r }.
Proof.
  - assert (Hlen : ∀ p s rest,
      startswith s p = Some rest → length s = (length p + length rest)%nat).
    { clear. induction p as [|a p IH]; intros [|c s] rest Hs; simpl in *;
        simplify_eq; auto.
      case_decide; [|done]. apply IH in Hs. lia. }
    apply Hlen in H. simpl in *. lia.
  - simpl. lia.
Qed.

(** [[^)]*\)] at the start of [s]: everything up to and including the
    first closing parenthesis; [Some rest] is what follows it. *)
Fixpoint match_to_close (s : pystr) : option pystr :=
  match s with
  | [] => None
  | c :: r => if decide (c = 41 (* ")" *)) then Some r else match_to_close r
  end.

(** One match of the pattern [\s*\([^)]*\)] anchored at the start of [s]:
    the white space is taken greedily, then an opening parenthesis, then
    everything up to the first closing one.  Giving back white space
    cannot make the opening parenthesis match, and [[^)]*] cannot run past
    a closing parenthesis, so backtracking finds no other match. *)
Definition match_junk (s : pystr) : option pystr :=
  match dropwhile isspace s with
  | c :: body => if decide (c = 40 (* "(" *)) then match_to_close body else None
  | [] => None
  end.

(** [re.sub(r"\s*\([^)]*\)", "", s)]: scan from the left, delete every
    match, keep the characters at which no match starts. *)
Equations? re_sub_junk (s : pystr) : pystr by wf (length s) lt :=
  re_sub_junk [] := [];
  re_sub_junk (c :: r) with Equations.Prop.Logic.inspect (match_junk (c :: r)) := {
    | exist _ (Some rest) H := re_sub_junk rest
    | exist _ None _ := c :: re_sub_junk r }.
Proof.
  - assert (Hdrop : ∀ p s, (length (dropwhile p s) ≤ length s)%nat).
    { clear. intros p s. induction s as [|a s IH]; simpl; [lia|].
      destruct (p a); simpl; lia. }
    assert (Hclose : ∀ s rest,
      match_to_close s = Some rest → (length rest < length s)%nat).
    { clear. induction s as [|a s IH]; simpl; [done|]. intros rest Hs.
      case_decide; simplify_eq; [lia|]. apply IH in Hs. lia. }
    unfold match_junk in H. specialize (Hdrop isspace (c :: r)).
    destruct (dropwhile isspace (c :: r)) as [|a body]; [done|].
    case_decide; [|done]. apply Hclose in H. simpl in *. lia.
  - simpl. lia.
Qed.

(** ** Exceptions *)

Inductive exn :=
| ValueError
| RequestException
| HTTPException (status_code : Z) (detail : string).

Inductive outcome (A : Type) :=
| Return (a : A)
| Raise (e : exn).
Arguments Return {A} a.
Arguments Raise {A} e.

#[export] Instance outcome_ret : MRet outcome := @Return.
#[export] Instance outcome_bind : MBind outcome := λ A B k m,
  match m with
  | Return a => k a
  | Raise e => Raise e
  end.

(** A [for] loop whose body may raise: the state after the last item, or
    the first exception. *)
Fixpoint for_each {A S : Type} (body : S → A → outcome S) (s : S) (items : list A)
    : outcome S :=
  match items with
  | [] => Return s
  | x :: rest => s' ← body s x; for_each body s' rest
  end.

(** ** [int(...)] and the format [02d] *)

Section Numbers.
Context `{PyRuntime}.

(** The digits of an integer literal: decimal characters with single
    underscores between them.  Gives the value and how many digits were
    read. *)
Fixpoint int_digits (after_digit : bool) (acc : Z) (count : nat) (s : pystr)
    : option (Z * nat) :=
  match s with
  | [] => if after_digit then Some (acc, count) else None
  | c :: r =>
      if decide (c = 95 (* "_" *)) then
        if after_digit then int_digits false acc count r else None
      else
        match unicode_decimal c with
        | Some d => int_digits true (10 * acc + d)%Z (S count) r
        | None => None
        end
  end.

(** The white space [int] skips at either end of a [str]: the ASCII
    characters of [Py_ISSPACE] (tab to carriage return, and the space)
    and the white space above ASCII, which is turned into spaces first.
    The separators U+001C to U+001F are left as they are and refused. *)
Definition int_isspace (c : codepoint) : bool :=
  isspace c && negb ((28 <=? c) && (c <=? 31)).

(** [int(s)] for a [str]: surrounding white space, an optional sign, the
    digits; [ValueError] for anything else and for a literal longer than
    [sys.int_max_str_digits] allows (0 switches that limit off, and
    literals of at most 640 digits are never refused). *)
Definition int (s : pystr) : outcome Z :=
  let t := reverse (dropwhile int_isspace (reverse (dropwhile int_isspace s))) in
  let '(negative, body) :=
    match t with
    | c :: r =>
        if decide (c = 45 (* "-" *)) then (true, r)
        else if decide (c = 43 (* "+" *)) then (false, r)
        else (false, t)
    | [] => (false, [])
    end in
  match int_digits false 0%Z 0%nat body with
  | Some (v, count) =>
      if decide (640 < count ∧ 0 < int_max_str_digits ∧ int_max_str_digits < count)%nat
      then Raise ValueError
      else Return (if negative then (- v)%Z else v)
  | None => Raise ValueError
  end.
End Numbers.

Fixpoint uint_digits (u : Decimal.uint) : pystr :=
  match u with
  | Decimal.Nil => []
  | Decimal.D0 r => 48 :: uint_digits r
  | Decimal.D1 r => 49 :: uint_digits r
  | Decimal.D2 r => 50 :: uint_digits r
  | Decimal.D3 r => 51 :: uint_digits r
  | Decimal.D4 r => 52 :: uint_digits r
  | Decimal.D5 r => 53 :: uint_digits r
  | Decimal.D6 r => 54 :: uint_digits r
  | Decimal.D7 r => 55 :: uint_digits r
  | Decimal.D8 r => 56 :: uint_digits r
  | Decimal.D9 r => 57 :: uint_digits r
  end.

(** The decimal digits of a natural number, as [str(n)] writes them. *)
Definition str_of_N (n : N) : pystr := uint_digits (N.to_uint n).

Definition zfill (width : nat) (digits : pystr) : pystr :=
  replicate (width - length digits) 48 (* "0" *) ++ digits.

(** [f"{n:02d}"]: at least two characters, zeros between the sign and the
    digits. *)
Definition format_02d (n : Z) : pystr :=
  if decide (n < 0)%Z then 45 (* "-" *) :: zfill 1 (str_of_N (Z.abs_N n))
  else zfill 2 (str_of_N (Z.to_N n)).

(** ** The document tree *)

(** What the parser builds.  [NavigableString] is a text node ([CData]
    included); [Comment] stands for every other kind of string (comments,
    declarations, the text of scripts and style sheets), which [get_text]
    leaves out; [class_] is the multi-valued [class] attribute, already
    split. *)
#[warnings="-register-all"]
Inductive PageElement :=
| NavigableString (text : pystr)
| Comment (text : pystr)
| Tag (name : pystr) (class_ : list pystr) (contents : list PageElement).

(** [e.descendants]: every node below [e], in document order. *)
Fixpoint descendants (e : PageElement) : list PageElement :=
  match e with
  | Tag _ _ contents =>
      (fix below (cs : list PageElement) : list PageElement :=
         match cs with
         | [] => []
         | c :: cs' => c :: descendants c ++ below cs'
         end) contents
  | _ => []
  end.

Definition tag_matches (names : list pystr) (class_ : option pystr) (e : PageElement)
    : bool :=
  match e with
  | Tag name classes _ =>
      bool_decide (name ∈ names)
      && match class_ with
         | Some c => bool_decide (c ∈ classes)
         | None => true
         end
  | _ => false
  end.

(** [e.find_all(names, class_=...)] *)
Definition find_all (names : list pystr) (class_ : option pystr) (e : PageElement)
    : list PageElement :=
  List.filter (tag_matches names class_) (descendants e).

(** [e.get_text(strip=True)]: the text nodes below [e], each stripped,
    the empty ones left out, joined without a separator. *)
Definition get_text_strip (e : PageElement) : pystr :=
  concat (descendants e ≫= λ d,
    match d with
    | NavigableString text =>
        let text := strip text in
        match text with [] => [] | _ => [text] end
    | _ => []
    end).

(** ** [fetch.py] *)

(** A name-day table, [{date key: [names]}]. *)
Abbreviation NamedayTable := (gmap pystr (list pystr)).

(** The three module-level tables of [fetch.py].  A function body reads
    them from the module when it runs, so the extractor is stated over
    whatever the module holds; [fetch_py] below is what the source file
    puts there. *)
Class ModuleTables := {
  MONTH_MAP : gmap pystr pystr;
  EMPTY_DATES : gset pystr;
  DATES_WITH_JUNK : gset pystr
}.

Definition fetch_py : ModuleTables := {|
  MONTH_MAP := {[
    py "januari" := py "01";
    py "februari" := py "02";
    py "mars" := py "03";
    py "april" := py "04";
    py "maj" := py "05";
    py "juni" := py "06";
    py "juli" := py "07";
    py "augusti" := py "08";
    py "september" := py "09";
    py "oktober" := py "10";
    py "november" := py "11";
    py "december" := py "12" ]};
  EMPTY_DATES := {[
    py "01-01"; py "02-02"; py "02-29"; py "03-25"; py "06-24"; py "11-01";
    py "12-25" ]};
  DATES_WITH_JUNK := {[
    py "04-30"; py "05-01"; py "12-24"; py "12-26"; py "12-28" ]}
|}.

Section Extractor.
Context `{PyRuntime} `{ModuleTables}.

(** [names_part.replace(" och ", ",").split(",")] *)
Definition name_fragments (names_part : pystr) : list pystr :=
  split_on 44 (* "," *) (replace (py " och ") (py ",") names_part).

(** Lines 88-92: the loop that cleans the names of a date with junk. *)
Definition junk_names (names_part : pystr) : list pystr :=
  foldl (λ names n,
           let cleaned := strip (re_sub_junk n) in
           match cleaned with
           | [] => names
           | _ => names ++ [cleaned]
           end)
        [] (name_fragments names_part).

(** Lines 96-100: the list comprehension of the default path. *)
Definition plain_names (names_part : pystr) : list pystr :=
  strip <$> filter (λ n, strip n ≠ []) (name_fragments names_part).

(** [cols = [c.get_text(strip=True) for c in row.find_all(["td", "th"])]] *)
Definition cols (row : PageElement) : list pystr :=
  get_text_strip <$> find_all [py "td"; py "th"] None row.

(** The body of the loop over rows (lines 63-102).  Every [continue]
    is a [Return result]. *)
Definition parse_row (result : NamedayTable) (row : PageElement)
    : outcome NamedayTable :=
  match cols row with
  | cell0 :: names_part :: _ =>
      let date_part := str_lower cell0 in
      let parts := split date_part in
      match parts with
      | [day; month_sv] =>
          match MONTH_MAP !! month_sv with
          | None => Return result
          | Some [] => Return result
          | Some month =>
              d ← int day;
              let key := month ++ py "-" ++ format_02d d in
              if decide (key ∈ EMPTY_DATES) then
                Return (<[key := []]> result)
              else if decide (key ∈ DATES_WITH_JUNK) then
                Return (<[key := junk_names names_part]> result)
              else
                Return (<[key := plain_names names_part]> result)
          end
      | _ => Return result
      end
  | _ => Return result
  end.

(** [rows = table.find_all("tr")[1:]] and the loop over them. *)
Definition parse_table (result : NamedayTable) (table : PageElement)
    : outcome NamedayTable :=
  let rows := drop 1 (find_all [py "tr"] None table) in
  for_each parse_row result rows.

Definition parse_tables (soup : PageElement) : outcome NamedayTable :=
  let result : NamedayTable := ∅ in
  let tables := find_all [py "table"] (Some (py "wikitable")) soup in
  for_each parse_table result tables.
End Extractor.

(** ** [main.py] *)

(** [datetime(year, month, day)] checks its fields as the standard library
    does: [_is_leap], [_days_in_month], [_check_date_fields]. *)
Definition is_leap (year : Z) : bool :=
  ((year mod 4 =? 0) && (negb (year mod 100 =? 0) || (year mod 400 =? 0)))%Z.

Definition DAYS_IN_MONTH : list Z :=
  [-1; 31; 28; 31; 30; 31; 30; 31; 31; 30; 31; 30; 31]%Z.

Definition days_in_month (year month : Z) : Z :=
  if ((month =? 2)%Z && is_leap year)%bool then 29%Z
  else default 0%Z (DAYS_IN_MONTH !! Z.to_nat month).

Definition datetime (year month day : Z) : outcome (Z * Z * Z) :=
  if decide (1 ≤ year ≤ 9999)%Z then
    if decide (1 ≤ month ≤ 12)%Z then
      if decide (1 ≤ day ≤ days_in_month year month)%Z
      then Return (year, month, day)
      else Raise ValueError
    else Raise ValueError
  else Raise ValueError.

(** The body [get_date] answers with. *)
Record DateResponse := {
  date : pystr;
  names : list pystr;
  count : nat
}.

(** [GET /api/date/{month}/{day}], reading the served table [NAMEDAYS]. *)
Definition get_date (NAMEDAYS : NamedayTable) (month day : Z) : outcome DateResponse :=
  if decide (month < 1 ∨ month > 12)%Z then
    Raise (HTTPException 400 "Month must be between 1 and 12")
  else if decide (day < 1 ∨ day > 31)%Z then
    Raise (HTTPException 400 "Day must be between 1 and 31")
  else
    match datetime 2000 month day with
    | Raise ValueError => Raise (HTTPException 400 "Invalid date")
    | Raise e => Raise e
    | Return _ =>
        let date_key := format_02d month ++ py "-" ++ format_02d day in
        let names := default [] (NAMEDAYS !! date_key) in
        Return {| date := date_key; names := names; count := length names |}
    end.

(** What a refresh can touch: the served table, the value stored under
    [KV_KEY] when a key-value client is configured ([kv] is [None] when it
    is not), and the JSON file.  A stored JSON text is represented by the
    table it encodes. *)
Record Service := {
  NAMEDAYS : NamedayTable;
  kv : option (option NamedayTable);
  json_file : option NamedayTable
}.

Record RefreshResponse := {
  status : string;
  total_dates : nat;
  total_names : nat
}.

Definition verify_api_key (API_KEY x_api_key : pystr) : outcome () :=
  match API_KEY with
  | [] => Raise (HTTPException 500 "API key not configured on server")
  | _ =>
      if decide (x_api_key ≠ API_KEY)
      then Raise (HTTPException 401 "Invalid API key")
      else Return ()
  end.

Section Refresh.
Context `{PyRuntime} `{ModuleTables}.

(** [POST /api/refresh].  [page] is what [fetch_html()] comes back with
    on this call: the document, or the exception of the request.  The
    write (lines 178-182) is taken to succeed: an exception of [kv.set]
    or of the file, which would leave the store touched and the served
    table not yet replaced, is outside this definition. *)
Definition refresh_namedays (API_KEY : pystr) (page : outcome PageElement)
    (x_api_key : pystr) (s : Service) : outcome RefreshResponse * Service :=
  match verify_api_key API_KEY x_api_key with
  | Raise e => (Raise e, s)
  | Return _ =>
      match page with
      | Raise e => (Raise e, s)
      | Return html =>
          match parse_tables html with
          | Raise e => (Raise e, s)
          | Return data =>
              if decide (data = ∅) then
                (Raise (HTTPException 500 "Failed to fetch data from Wikipedia"), s)
              else
                let s :=
                  match kv s with
                  | Some _ =>
                      {| NAMEDAYS := NAMEDAYS s; kv := Some (Some data);
                         json_file := json_file s |}
                  | None =>
                      {| NAMEDAYS := NAMEDAYS s; kv := None;
                         json_file := Some data |}
                  end in
                let s :=
                  {| NAMEDAYS := data; kv := kv s; json_file := json_file s |} in
                (Return {| status := "success";
                           total_dates := size (NAMEDAYS s);
                           total_names :=
                             sum_list (length <$> (map_to_list (NAMEDAYS s)).*2) |},
                 s)
          end
      end
  end.
End Refresh.

(** *** The other routes *)

(** [load_namedays()], run when the module is imported: the value under
    [KV_KEY] when a client is configured and the key is set (a stored JSON
    text is never the empty string, so [if data] holds), else the JSON
    file, else the empty table. *)
Definition load_namedays (s : Service) : NamedayTable :=
  match kv s with
  | Some (Some data) => data
  | _ =>
      match json_file s with
      | Some data => data
      | None => ∅
      end
  end.

(** [GET /api/today]; [month] and [day] are those of [datetime.now()]. *)
Definition get_today (NAMEDAYS : NamedayTable) (month day : Z) : DateResponse :=
  let date_key := format_02d month ++ py "-" ++ format_02d day in
  let names := default [] (NAMEDAYS !! date_key) in
  {| date := date_key; names := names; count := length names |}.

Module ByMonth.
(** The body [get_month] answers with. *)
Record response := {
  month : Z;
  namedays : NamedayTable;
  count : nat
}.
End ByMonth.

(** [GET /api/month/{month}].  The loop goes through the items of the
    dictionary; a finite map lists them in an order of its own, which the
    dictionary built here does not depend on. *)
Definition get_month (NAMEDAYS : NamedayTable) (month : Z) : outcome ByMonth.response :=
  if decide (month < 1 ∨ month > 12)%Z then
    Raise (HTTPException 400 "Month must be between 1 and 12")
  else
    let month_namedays : NamedayTable :=
      foldl (λ month_namedays item,
               match startswith item.1 (format_02d month ++ py "-") with
               | Some _ => <[item.1 := item.2]> month_namedays
               | None => month_namedays
               end)
            ∅ (map_to_list NAMEDAYS) in
    Return {| ByMonth.month := month;
              ByMonth.namedays := month_namedays;
              ByMonth.count := size month_namedays |}.

Module All.
(** The body [get_all] answers with. *)
Record response := {
  namedays : NamedayTable;
  total_dates : nat;
  total_names : nat
}.
End All.

(** [GET /api/all] *)
Definition get_all (NAMEDAYS : NamedayTable) : All.response :=
  {| All.namedays := NAMEDAYS;
     All.total_dates := size NAMEDAYS;
     All.total_names := sum_list (length <$> (map_to_list NAMEDAYS).*2) |}.

Module ByName.
(** One [{"date": ..., "name": ...}] of the answer of [get_name]. *)
Record found := {
  date : pystr;
  name : pystr
}.

Record response := {
  asked : pystr;
  dates : list found;
  count : nat
}.

(** [NotFound detail] is [HTTPException(status_code=404, detail=detail)]. *)
Inductive answer :=
| NotFound (detail : pystr)
| Found (r : response).
End ByName.

Section Names.
Context `{PyRuntime}.

(** The inner loop of [get_name] with its [break]: the first name of the
    list equal to the name asked for once both are in lower case. *)
Fixpoint first_match (name_lower : pystr) (names : list pystr) : option pystr :=
  match names with
  | [] => None
  | n :: rest =>
      if decide (str_lower n = name_lower) then Some n
      else first_match name_lower rest
  end.

(** [GET /api/name/{name}].  The dates come in the order of the items of
    the dictionary, which a finite map does not keep. *)
Definition get_name (NAMEDAYS : NamedayTable) (name : pystr) : ByName.answer :=
  let name_lower := str_lower name in
  let results :=
    foldl (λ results item,
             match first_match name_lower item.2 with
             | Some n => results ++ [{| ByName.date := item.1; ByName.name := n |}]
             | None => results
             end)
          [] (map_to_list NAMEDAYS) in
  match results with
  | [] => ByName.NotFound (py "Name '" ++ name ++ py "' not found in nameday calendar")
  | _ => ByName.Found {| ByName.asked := name;
                         ByName.dates := results;
                         ByName.count := length results |}
  end.
End Names.

(** ** The vocabulary of the specification *)

(** The characters "0" to "9". *)
Definition isdigit (c : codepoint) : bool := (48 <=? c) && (c <=? 57).

(** Two characters that are digits and spell a number from [lo] to [hi]. *)
Definition two_digit_in (c1 c0 : codepoint) (lo hi : N) : bool :=
  isdigit c1 && isdigit c0
  && (lo <=? 10 * (c1 - 48) + (c0 - 48)) && (10 * (c1 - 48) + (c0 - 48) <=? hi).

(** The DateKey invariant of the data model: the fixed shape [MM-DD], the
    month from 01 to 12, the day from 01 to 31. *)
Definition is_DateKey (k : pystr) : bool :=
  match k with
  | [m1; m0; dash; d1; d0] =>
      two_digit_in m1 m0 1 12 && (dash =? 45) && two_digit_in d1 d0 1 31
  | _ => false
  end.

(** A number from 0 to 99 written with two digits (48 is "0"). *)
Definition two_digits (n : Z) : pystr :=
  [48 + Z.to_N (n / 10); 48 + Z.to_N (n mod 10)].

(** A string with a parenthesized substring: an opening parenthesis (40)
    with a closing one (41) somewhere after it. *)
Definition parenthesized (s : pystr) : Prop :=
  ∃ a b c, s = a ++ 40 :: b ++ 41 :: c.

(** The name list of a date with junk, in the words of the
    specification: conjunction to comma, split on commas, take the
    parenthetical parts out of each fragment, trim, keep what is not
    empty. *)
Definition strip_annotations (names_cell : pystr) : list pystr :=
  filter (λ n, n ≠ [])
    ((λ fragment, strip (re_sub_junk fragment))
       <$> split_on 44 (replace (py " och ") (py ",") names_cell)).

(** The name list of the default path, in the words of the
    specification: conjunction to comma, split on commas, trim each
    fragment, keep what is not empty. *)
Definition split_names (names_cell : pystr) : list pystr :=
  filter (λ n, n ≠ [])
    (strip <$> split_on 44 (replace (py " och ") (py ",") names_cell)).

Section Rows.
Context `{PyRuntime} `{ModuleTables}.

(** The rows [parse_tables] goes through, in the order it meets them:
    for each candidate table, every row but the first. *)
Definition rows_of (soup : PageElement) : list PageElement :=
  find_all [py "table"] (Some (py "wikitable")) soup
    ≫= λ table, drop 1 (find_all [py "tr"] None table).

(** The tokens of the date cell of a row (none when it has no cell). *)
Definition date_tokens (row : PageElement) : list pystr :=
  match cols row with
  | cell0 :: _ => split (str_lower cell0)
  | [] => []
  end.

(** The rows of claim C4: fewer than two cells, or a date cell that is
    not two tokens, or a month token outside the lexicon. *)
Definition skipped (row : PageElement) : Prop :=
  (length (cols row) < 2)%nat
  ∨ length (date_tokens row) ≠ 2%nat
  ∨ ∃ day month_sv, date_tokens row = [day; month_sv] ∧ MONTH_MAP !! month_sv = None.

(** [dated row month d names_cell]: the row has two cells or more, its
    date cell is a day token that [int] reads as [d] and a month token
    that the lexicon sends to the code [month], and [names_cell] is its
    second cell. *)
Definition dated (row : PageElement) (month : pystr) (d : Z) (names_cell : pystr)
    : Prop :=
  ∃ cell0 rest day month_sv,
    cols row = cell0 :: names_cell :: rest
    ∧ split (str_lower cell0) = [day; month_sv]
    ∧ MONTH_MAP !! month_sv = Some month
    ∧ month ≠ []
    ∧ int day = Return d.


(** The key line 79 composes. *)
Definition date_key (month : pystr) (d : Z) : pystr :=
  month ++ py "-" ++ format_02d d.

(** The list lines 82-102 record under [key] for a names cell. *)
Definition recorded (key names_cell : pystr) : list pystr :=
  if decide (key ∈ EMPTY_DATES) then []
  else if decide (key ∈ DATES_WITH_JUNK) then junk_names names_cell
  else plain_names names_cell.
End Rows.

(** The value of a string of ASCII digits read after [acc]. *)
Definition digits_value (acc : Z) (s : pystr) : Z :=
  foldl (λ a c, 10 * a + (Z.of_N c - 48))%Z acc s.

Definition ascii_digits (s : pystr) : Prop := Forall (λ c, 48 ≤ c ≤ 57) s.

(** ** A runtime and documents to run the program on *)

Definition ascii_lower_char (c : codepoint) : codepoint :=
  if decide (65 ≤ c ≤ 90) then c + 32 else c.

Definition ascii_decimal (c : codepoint) : option Z :=
  if decide (48 ≤ c ≤ 57) then Some (Z.of_N c - 48)%Z else None.

(** The runtime restricted to ASCII (with the default digit limit): on
    ASCII text [str.lower] and [int] do exactly this. *)
Definition ascii_runtime : PyRuntime := {|
  str_lower s := ascii_lower_char <$> s;
  unicode_decimal := ascii_decimal;
  int_max_str_digits := 4300;
  unicode_decimal_ascii c _ := eq_refl
|}.

(** [<td>text</td>], [<tr>...</tr>], a table of class [wikitable] with a
    header row, and a document. *)
Definition td (text : string) : PageElement :=
  Tag (py "td") [] [NavigableString (py text)].
Definition tr (cells : list PageElement) : PageElement := Tag (py "tr") [] cells.
Definition wikitable (rows : list PageElement) : PageElement :=
  Tag (py "table") [py "wikitable"]
    (tr [Tag (py "th") [] [NavigableString (py "Datum")];
         Tag (py "th") [] [NavigableString (py "Namn")]] :: rows).
Definition document (body : list PageElement) : PageElement :=
  Tag (py "[document]") [] body.

(** Rows of the page, and of pages it could turn into. *)
Definition row_footnote : PageElement := tr [td "Referenser"].
Definition row_svea : PageElement := tr [td "1 Januari"; td "Svea"].
Definition row_valborg : PageElement := tr [td "30 April"; td "Mariana (Valborg)"].
Definition row_kristoffer : PageElement := tr [td "15 Mars"; td "Kristoffer, Christoffer"].

Definition row_stefan : PageElement :=
  tr [td "26 December"; td "Stefan (annandag jul) och Staffan , Stefania (x),, "].
Definition row_erik : PageElement := tr [td "24 Januari"; td "Erik , Erika och Jerker"].
Definition row_gotthard : PageElement := tr [td "05 Maj"; td "Gotthard, Erhard"].
Definition row_christel : PageElement := tr [td "15 mars"; td "Christel"].
Definition row_day_99 : PageElement := tr [td "99 Januari"; td "Erik"].
Definition row_day_with_period : PageElement := tr [td "1. Januari"; td "Svea"].

(** A service that has a table to lose, and a page without any table. *)
Definition serving : Service := {|
  NAMEDAYS := {[ py "03-15" := [py "Kristoffer"; py "Christoffer"] ]};
  kv := None;
  json_file := Some {[ py "03-15" := [py "Kristoffer"; py "Christoffer"] ]}
|}.
Definition page_without_tables : PageElement :=
  document [Tag (py "p") [] [NavigableString (py "Sidan finns inte")]].

(** Pages of one table, and the tables extracted from them. *)
Definition page_kristoffer : PageElement := document [wikitable [row_kristoffer]].
Definition table_kristoffer : NamedayTable :=
  {[ py "03-15" := [py "Kristoffer"; py "Christoffer"] ]}.
Definition page_christel : PageElement :=
  document [wikitable [row_kristoffer; row_christel]].
Definition table_christel : NamedayTable := {[ py "03-15" := [py "Christel"] ]}.
Definition page_svea : PageElement := document [wikitable [row_svea]].
Definition table_svea : NamedayTable := {[ py "01-01" := [] ]}.
Definition page_valborg : PageElement := document [wikitable [row_valborg]].
Definition table_valborg : NamedayTable := {[ py "04-30" := [py "Mariana"] ]}.

(** The examples below run on the ASCII runtime and on the tables of the
    source file. *)
#[local] Existing Instance ascii_runtime.
#[local] Existing Instance fetch_py.

Ltac by_computation := vm_compute; first [reflexivity | exact I | discriminate].
Ltac decide_it := refine (bool_decide_unpack _ _); vm_compute; exact I.

(** * Properties *)

(** ** Loops *)

Lemma for_each_app {A S} (body : S → A → outcome S) s (l1 l2 : list A) :
  for_each body s (l1 ++ l2) = s' ← for_each body s l1; for_each body s' l2.
Proof.
  revert s; induction l1 as [|x l1 IH]; intros s; simpl; [done|].
  destruct (body s x) as [s'|e]; simpl; [apply IH | done].
Qed.

Lemma for_each_skip {A S} (body : S → A → outcome S) s (l1 l2 : list A) x :
  (∀ s, body s x = Return s) →
  for_each body s (l1 ++ x :: l2) = for_each body s (l1 ++ l2).
Proof.
  intros Hx. rewrite !for_each_app.
  destruct (for_each body s l1) as [s'|e]; simpl; [|done]. by rewrite Hx.
Qed.

Section RowsFacts.
Context `{PyRuntime} `{ModuleTables}.

Lemma int_raises s e : int s = Raise e → e = ValueError.
Proof.
  unfold int. destruct (match reverse _ with [] => _ | _ => _ end) as [neg body].
  destruct (int_digits _ _ _ _) as [[v n]|]; [case_decide|]; congruence.
Qed.

(** The two nested loops visit [rows_of soup]. *)
Lemma parse_tables_rows soup :
  parse_tables soup = for_each parse_row ∅ (rows_of soup).
Proof.
  unfold parse_tables, rows_of.
  generalize (∅ : NamedayTable).
  induction (find_all [py "table"] (Some (py "wikitable")) soup) as [|t ts IH];
    intros acc; [done|].
  change (for_each parse_table acc (t :: ts))
    with (acc' ← parse_table acc t; for_each parse_table acc' ts).
  change ((t :: ts) ≫= _)
    with (drop 1 (find_all [py "tr"] None t)
          ++ (ts ≫= λ table, drop 1 (find_all [py "tr"] None table))).
  rewrite for_each_app.
  change (parse_table acc t)
    with (for_each parse_row acc (drop 1 (find_all [py "tr"] None t))).
  destruct (for_each parse_row acc (drop 1 _)) as [acc'|e]; simpl;
    [apply IH | done].
Qed.

Lemma parse_row_skipped row result :
  skipped row → parse_row result row = Return result.
Proof.
  unfold skipped, date_tokens, parse_row.
  destruct (cols row) as [|cell0 [|names_part rest]]; simpl; try done.
  intros [Hlen | [Hlen | (day & month_sv & Htok & Hmonth)]].
  - lia.
  - destruct (split (str_lower cell0)) as [|a [|b [|c l]]]; simpl in *; done.
  - rewrite Htok, Hmonth. done.
Qed.

Lemma parse_row_dated row month d names_cell result :
  dated row month d names_cell →
  parse_row result row
  = Return (<[date_key month d := recorded (date_key month d) names_cell]> result).
Proof.
  intros (cell0 & rest & day & month_sv & Hcols & Htok & Hmonth & Hne & Hint).
  unfold parse_row, recorded, date_key. rewrite Hcols, Htok, Hmonth.
  destruct month as [|c month]; [done|]. rewrite Hint. simpl.
  repeat case_decide; done.
Qed.

(** What a row can do: leave the table alone, record one entry, or
    raise [ValueError] at [int(day)]. *)
Lemma parse_row_cases row :
  (∀ result, parse_row result row = Return result)
  ∨ (∃ month d names_cell, dated row month d names_cell)
  ∨ (∀ result, parse_row result row = Raise ValueError).
Proof.
  unfold dated, parse_row.
  destruct (cols row) as [|cell0 [|names_part rest]]; [by left | by left |].
  simpl.
  destruct (split (str_lower cell0)) as [|day [|month_sv [|c l]]] eqn:Htok;
    [by left | by left | | by left].
  destruct (MONTH_MAP !! month_sv) as [[|c month]|] eqn:Hmonth;
    [by left | | by left].
  destruct (int day) as [d|e] eqn:Hint.
  - right; left. exists (c :: month), d, names_part.
    exists cell0, rest, day, month_sv. done.
  - right; right. intros result. by rewrite (int_raises _ _ Hint).
Qed.
End RowsFacts.

(** ** Stripping and the parenthesis pattern *)

Lemma dropwhile_suffix p s : dropwhile p s `suffix_of` s.
Proof.
  induction s as [|c s IH]; simpl; [done|].
  destruct (p c); [by apply suffix_cons_r | done].
Qed.

Lemma strip_infix s : ∃ before after, s = before ++ strip s ++ after.
Proof.
  unfold strip, rstrip, lstrip.
  destruct (dropwhile_suffix isspace s) as [before Hl].
  destruct (dropwhile_suffix isspace (reverse (dropwhile isspace s))) as [after Hr].
  exists before, (reverse after).
  rewrite <- reverse_app, <- Hr, reverse_involutive. done.
Qed.

Lemma parenthesized_strip s : parenthesized (strip s) → parenthesized s.
Proof.
  intros (a & b & c & Hs).
  destruct (strip_infix s) as (before & after & Hstrip).
  exists (before ++ a), b, (c ++ after).
  rewrite Hs in Hstrip. rewrite Hstrip.
  rewrite <- !app_assoc. simpl. by rewrite <- !app_assoc.
Qed.

Lemma match_to_close_None s : match_to_close s = None → 41 ∉ s.
Proof.
  induction s as [|c s IH]; simpl; [intros _; apply not_elem_of_nil|].
  case_decide; [done|]. intros Hs. apply not_elem_of_cons. auto.
Qed.

Lemma match_to_close_suffix s rest :
  match_to_close s = Some rest → rest `suffix_of` s.
Proof.
  induction s as [|c s IH]; simpl; [done|].
  case_decide; intros Hs; simplify_eq; apply suffix_cons_r; auto.
Qed.

Lemma match_junk_suffix s rest : match_junk s = Some rest → rest `suffix_of` s.
Proof.
  unfold match_junk. intros Hs.
  pose proof (dropwhile_suffix isspace s) as Hd.
  destruct (dropwhile isspace s) as [|c body]; [done|].
  case_decide; [|done]. apply match_to_close_suffix in Hs.
  etrans; [|exact Hd]. by apply suffix_cons_r.
Qed.

Lemma match_junk_open_None r : match_junk (40 :: r) = None → 41 ∉ r.
Proof. unfold match_junk. simpl. apply match_to_close_None. Qed.

Lemma elem_of_suffix (x : codepoint) (l1 l2 : pystr) :
  l1 `suffix_of` l2 → x ∈ l1 → x ∈ l2.
Proof. intros [k ->] Hx. apply elem_of_app. by right. Qed.

(** The substitution only deletes characters. *)
Lemma re_sub_junk_elem x s : x ∈ re_sub_junk s → x ∈ s.
Proof.
  funelim (re_sub_junk s).
  - done.
  - intros Hx. eapply elem_of_suffix; [by apply match_junk_suffix|]. auto.
  - intros [->|Hx]%elem_of_cons; [left | right; auto].
Qed.

(** After the substitution no opening parenthesis has a closing one
    behind it: a character is kept only where no match starts, and at an
    opening parenthesis a match starts as soon as a closing one follows. *)
Lemma re_sub_junk_not_parenthesized s : ¬ parenthesized (re_sub_junk s).
Proof.
  funelim (re_sub_junk s).
  - intros (a & b & c & Hs). by destruct a.
  - done.
  - intros ([|c' a] & b & d & Hs); simpl in Hs; injection Hs as -> Hs.
    + match goal with
      | Hm : match_junk (40 :: _) = None |- _ =>
          apply (match_junk_open_None _ Hm)
      end.
      apply (re_sub_junk_elem 41 r). rewrite Hs.
      apply elem_of_app. right. left.
    + match goal with IH : ¬ parenthesized _ |- _ => apply IH end.
      by exists a, b, d.
Qed.

Lemma foldl_snoc_filter (f : pystr → pystr) (l : list pystr) (acc : list pystr) :
  foldl (λ names n, match f n with [] => names | _ => names ++ [f n] end) acc l
  = acc ++ filter (λ n, n ≠ []) (f <$> l).
Proof.
  revert acc; induction l as [|n l IH]; intros acc; simpl.
  - by rewrite app_nil_r.
  - rewrite IH. destruct (f n) as [|c w] eqn:Hf.
    + by rewrite filter_cons_False by auto.
    + rewrite filter_cons_True by done. by rewrite <- app_assoc.
Qed.

(** The loop of lines 88-92 builds the list the specification
    describes. *)
Lemma junk_names_spec names_cell : junk_names names_cell = strip_annotations names_cell.
Proof.
  unfold junk_names, strip_annotations, name_fragments.
  apply (foldl_snoc_filter (λ fragment, strip (re_sub_junk fragment))).
Qed.

(** So does the comprehension of lines 96-100. *)
Lemma plain_names_spec names_cell : plain_names names_cell = split_names names_cell.
Proof.
  unfold plain_names, split_names, name_fragments.
  induction (split_on 44 _) as [|n l IH]; [done|].
  rewrite fmap_cons, !filter_cons.
  destruct (decide (strip n ≠ [])); [|done].
  rewrite fmap_cons. by f_equal.
Qed.

(** ** Rows that are skipped, and the three ways a row is recorded *)

(** Claim C4.  A row with fewer than two cells, or whose date cell is not
    exactly two white-space separated tokens, or whose month token is not
    in the month lexicon, leaves the table as it is; the mapping
    [parse_tables] returns (or the exception it raises) is the one of the
    document without that row. *)
Theorem skipped_row_contributes_nothing (R : PyRuntime) (T : ModuleTables) row :
  skipped row →
  (∀ result, parse_row result row = Return result)
  ∧ (∀ soup soup' before after,
       rows_of soup = before ++ row :: after →
       rows_of soup' = before ++ after →
       parse_tables soup = parse_tables soup').
Proof.
  intros Hrow. split.
  - intros result. by apply parse_row_skipped.
  - intros soup soup' before after Hsoup Hsoup'.
    rewrite !parse_tables_rows, Hsoup, Hsoup'.
    apply for_each_skip. intros result. by apply parse_row_skipped.
Qed.

Lemma skipped_row_contributes_nothing_witness :
  skipped row_footnote
  ∧ parse_tables (document [wikitable [row_kristoffer; row_footnote]])
    = parse_tables (document [wikitable [row_kristoffer]]).
Proof.
  assert (Hrow : skipped row_footnote) by (left; vm_compute; lia).
  split; [exact Hrow|].
  apply (proj2 (skipped_row_contributes_nothing _ _ row_footnote Hrow)
           _ _ [row_kristoffer] []); by_computation.
Defined.

(** Claim C5.  When the key a row composes is in the force-empty set, the
    row records the empty list under it: whatever the names cell holds,
    and whether or not the key is in the strip-annotations set as well
    (nothing is assumed about either). *)
Theorem force_empty_takes_priority (R : PyRuntime) (T : ModuleTables)
    row month d names_cell result :
  dated row month d names_cell →
  date_key month d ∈ EMPTY_DATES →
  parse_row result row = Return (<[date_key month d := []]> result).
Proof.
  intros Hrow Hkey. rewrite (parse_row_dated _ _ _ _ _ Hrow).
  unfold recorded. by rewrite decide_True.
Qed.

Lemma force_empty_takes_priority_witness :
  dated row_svea (py "01") 1 (py "Svea")
  ∧ date_key (py "01") 1 ∈ EMPTY_DATES
  ∧ parse_row ∅ row_svea = Return (<[date_key (py "01") 1 := []]> ∅).
Proof.
  assert (Hrow : dated row_svea (py "01") 1 (py "Svea")).
  { exists (py "1 Januari"), [], (py "1"), (py "januari").
    repeat split; by_computation. }
  assert (Hkey : date_key (py "01") 1 ∈ EMPTY_DATES) by decide_it.
  exact (conj Hrow (conj Hkey (force_empty_takes_priority _ _ _ _ _ _ ∅ Hrow Hkey))).
Defined.

(** The force-empty branch wins on tables where a key is in both sets. *)
Example force_empty_before_junk :
  let both : ModuleTables :=
    {| MONTH_MAP := {[ py "april" := py "04" ]};
       EMPTY_DATES := {[ py "04-30" ]};
       DATES_WITH_JUNK := {[ py "04-30" ]} |} in
  @parse_row ascii_runtime both ∅ row_valborg
  = Return {[ py "04-30" := [] ]}.
Proof. by_computation. Qed.

(** Claim C6.  When the key a row composes is in the strip-annotations set
    and not in the force-empty set, the row records the list the
    specification describes (conjunction to comma, split on commas,
    parenthetical parts removed, trimmed, empty fragments dropped); no name
    of that list has a parenthesized substring; for 04-30, which is in the
    set, the names cell "Mariana (Valborg)" gives ["Mariana"].  The other
    names cells show each step at work: the conjunction and the commas
    both separate, white space goes on both sides, a fragment that was
    only a parenthetical part is dropped, and the parenthetical parts are
    taken out fragment by fragment, after the split. *)
Theorem junk_dates_lose_annotations (R : PyRuntime) (T : ModuleTables)
    row month d names_cell result :
  dated row month d names_cell →
  date_key month d ∉ EMPTY_DATES →
  date_key month d ∈ DATES_WITH_JUNK →
  parse_row result row
  = Return (<[date_key month d := strip_annotations names_cell]> result)
  ∧ Forall (λ name, ¬ parenthesized name) (strip_annotations names_cell)
  ∧ (py "04-30" ∈ @DATES_WITH_JUNK fetch_py
     ∧ (py "04-30" ∉ @EMPTY_DATES fetch_py)
     ∧ strip_annotations (py "Mariana (Valborg)") = [py "Mariana"]
     ∧ strip_annotations (py "Stefan (annandag jul) och Staffan , Stefania (x),, ")
       = [py "Stefan"; py "Staffan"; py "Stefania"]
     ∧ strip_annotations (py "(julafton), Eva") = [py "Eva"]
     ∧ strip_annotations (py "Eva (Adam och Eva)") = [py "Eva (Adam"; py "Eva)"]).
Proof.
  intros Hrow Hempty Hjunk. split; [|split].
  - rewrite (parse_row_dated _ _ _ _ _ Hrow). unfold recorded.
    rewrite decide_False, decide_True by done. by rewrite junk_names_spec.
  - unfold strip_annotations. apply Forall_forall. intros name Hname.
    apply list_elem_of_filter in Hname as [_ Hname].
    apply list_elem_of_fmap in Hname as (fragment & -> & _).
    intros Hp. apply parenthesized_strip in Hp.
    by apply re_sub_junk_not_parenthesized in Hp.
  - split; [decide_it | split; [decide_it | repeat split; by_computation]].
Qed.

Lemma junk_dates_lose_annotations_witness :
  dated row_stefan (py "12") 26
    (py "Stefan (annandag jul) och Staffan , Stefania (x),,")
  ∧ (date_key (py "12") 26 ∉ EMPTY_DATES)
  ∧ date_key (py "12") 26 ∈ DATES_WITH_JUNK
  ∧ parse_row ∅ row_stefan
    = Return (<[date_key (py "12") 26
                := strip_annotations
                     (py "Stefan (annandag jul) och Staffan , Stefania (x),,")]> ∅)
  ∧ parse_row ∅ row_stefan
    = Return {[ py "12-26" := [py "Stefan"; py "Staffan"; py "Stefania"] ]}.
Proof.
  assert (Hrow : dated row_stefan (py "12") 26
                   (py "Stefan (annandag jul) och Staffan , Stefania (x),,")).
  { exists (py "26 December"), [], (py "26"), (py "december").
    repeat split; by_computation. }
  assert (Hempty : date_key (py "12") 26 ∉ EMPTY_DATES) by decide_it.
  assert (Hjunk : date_key (py "12") 26 ∈ DATES_WITH_JUNK) by decide_it.
  assert (Hrun : parse_row ∅ row_stefan
    = Return {[ py "12-26" := [py "Stefan"; py "Staffan"; py "Stefania"] ]})
    by by_computation.
  exact (conj Hrow (conj Hempty (conj Hjunk (conj
    (proj1 (junk_dates_lose_annotations _ _ _ _ _ _ ∅ Hrow Hempty Hjunk))
    Hrun)))).
Defined.

(** Claim C7.  When the key a row composes is in neither override set, the
    row records the names cell with the conjunction turned into a comma,
    split on commas, each fragment trimmed, the empty ones dropped, and
    nothing else: "Erik och Erika" gives ["Erik", "Erika"], "Kristoffer,
    Christoffer" gives ["Kristoffer", "Christoffer"], and a parenthetical
    part stays where it is.  White space goes on both sides of a
    fragment and stays inside it, empty fragments go, and only " och "
    with its two spaces is a conjunction. *)
Theorem default_path_splits_names (R : PyRuntime) (T : ModuleTables)
    row month d names_cell result :
  dated row month d names_cell →
  date_key month d ∉ EMPTY_DATES →
  date_key month d ∉ DATES_WITH_JUNK →
  parse_row result row
  = Return (<[date_key month d := split_names names_cell]> result)
  ∧ split_names (py "Erik och Erika") = [py "Erik"; py "Erika"]
  ∧ split_names (py "Kristoffer, Christoffer") = [py "Kristoffer"; py "Christoffer"]
  ∧ split_names (py "Mariana (Valborg)") = [py "Mariana (Valborg)"]
  ∧ split_names (py "Erik , Erika och Jerker ") = [py "Erik"; py "Erika"; py "Jerker"]
  ∧ split_names (py " Karl Johan ,, och ,Eva") = [py "Karl Johan"; py "Eva"]
  ∧ split_names (py "Enoch och Hoch, och") = [py "Enoch"; py "Hoch"; py "och"].
Proof.
  intros Hrow Hempty Hjunk. split.
  - rewrite (parse_row_dated _ _ _ _ _ Hrow). unfold recorded.
    rewrite !decide_False by done. by rewrite plain_names_spec.
  - repeat split; by_computation.
Qed.

Lemma default_path_splits_names_witness :
  dated row_erik (py "01") 24 (py "Erik , Erika och Jerker")
  ∧ (date_key (py "01") 24 ∉ EMPTY_DATES)
  ∧ (date_key (py "01") 24 ∉ DATES_WITH_JUNK)
  ∧ parse_row ∅ row_erik
    = Return (<[date_key (py "01") 24
                := split_names (py "Erik , Erika och Jerker")]> ∅)
  ∧ parse_row ∅ row_erik
    = Return {[ py "01-24" := [py "Erik"; py "Erika"; py "Jerker"] ]}.
Proof.
  assert (Hrow : dated row_erik (py "01") 24 (py "Erik , Erika och Jerker")).
  { exists (py "24 Januari"), [], (py "24"), (py "januari").
    repeat split; by_computation. }
  assert (Hempty : date_key (py "01") 24 ∉ EMPTY_DATES) by decide_it.
  assert (Hjunk : date_key (py "01") 24 ∉ DATES_WITH_JUNK) by decide_it.
  assert (Hrun : parse_row ∅ row_erik
    = Return {[ py "01-24" := [py "Erik"; py "Erika"; py "Jerker"] ]})
    by by_computation.
  exact (conj Hrow (conj Hempty (conj Hjunk (conj
    (proj1 (default_path_splits_names _ _ _ _ _ _ ∅ Hrow Hempty Hjunk))
    Hrun)))).
Defined.

(** ** The shape of the keys *)

Lemma below_100 (P : Z → bool) :
  forallb P (Z.of_nat <$> seq 0 100) = true →
  ∀ d, (0 ≤ d ≤ 99)%Z → P d = true.
Proof.
  intros Hall d Hd. rewrite forallb_forall in Hall. apply Hall.
  apply list_elem_of_In, list_elem_of_fmap. exists (Z.to_nat d).
  split; [lia|]. apply elem_of_seq. lia.
Qed.

Lemma format_02d_two_digits d : (0 ≤ d ≤ 99)%Z → format_02d d = two_digits d.
Proof.
  intros Hd.
  apply (below_100 (λ d, bool_decide (format_02d d = two_digits d)))
    in Hd; [by apply bool_decide_eq_true in Hd | by_computation].
Qed.

(** The codes of the month lexicon are 01 to 12. *)
Lemma month_codes month_sv month :
  @MONTH_MAP fetch_py !! month_sv = Some month →
  ∃ m, (1 ≤ m ≤ 12)%Z ∧ month = two_digits m.
Proof.
  unfold MONTH_MAP, fetch_py.
  rewrite !lookup_insert_Some, lookup_singleton_Some.
  intros Hm.
  assert (month ∈ two_digits <$> [1; 2; 3; 4; 5; 6; 7; 8; 9; 10; 11; 12]%Z) as Hin.
  { repeat (destruct Hm as [[_ <-] | [_ Hm]]; [decide_it|]).
    destruct Hm as [_ <-]. decide_it. }
  apply list_elem_of_fmap in Hin as (m & -> & Hin). exists m. split; [|done].
  repeat (apply elem_of_cons in Hin as [->|Hin]; [lia|]).
  by apply elem_of_nil in Hin.
Qed.

Lemma two_digits_range lo hi :
  forallb (λ n, bool_decide
     (match two_digits n with
      | [c1; c0] => two_digit_in c1 c0 lo hi
      | _ => false
      end = bool_decide (Z.of_N lo ≤ n ≤ Z.of_N hi)%Z))
    (Z.of_nat <$> seq 0 100) = true →
  ∀ n, (0 ≤ n ≤ 99)%Z →
    two_digit_in (48 + Z.to_N (n / 10)) (48 + Z.to_N (n mod 10)) lo hi
    = bool_decide (Z.of_N lo ≤ n ≤ Z.of_N hi)%Z.
Proof.
  intros Hall n Hn. apply (below_100 _ Hall) in Hn.
  by apply bool_decide_eq_true in Hn.
Qed.

(** A key made of a month from 01 to 12 and a number from 0 to 99 meets
    the DateKey invariant exactly when the number is a day from 1 to 31. *)
Lemma is_DateKey_two_digits m d :
  (1 ≤ m ≤ 12)%Z → (0 ≤ d ≤ 99)%Z →
  is_DateKey (two_digits m ++ py "-" ++ two_digits d) = bool_decide (1 ≤ d ≤ 31)%Z.
Proof.
  intros Hm Hd. change (py "-") with [45]. unfold two_digits. simpl.
  rewrite (two_digits_range 1 12), (two_digits_range 1 31) by (by_computation || lia).
  rewrite bool_decide_eq_true_2 by lia. done.
Qed.

(** A decimal numeral of at most two digits is below 100. *)
Lemma uint_digits_short u : (length (uint_digits u) ≤ 2)%nat → N.of_uint u ≤ 99.
Proof.
  intros Hlen.
  destruct u as [|u|u|u|u|u|u|u|u|u|u]; [by_computation|..];
    (destruct u as [|u|u|u|u|u|u|u|u|u|u]; [by_computation|..];
      (destruct u; [by_computation|simpl in Hlen; lia..])).
Qed.

Lemma str_of_N_long n : 100 ≤ n → (3 ≤ length (str_of_N n))%nat.
Proof.
  intros Hn. unfold str_of_N.
  destruct (decide (length (uint_digits (N.to_uint n)) ≤ 2)%nat) as [Hlen|]; [|lia].
  apply uint_digits_short in Hlen. rewrite DecimalN.Unsigned.of_to in Hlen. lia.
Qed.

(** The key of line 79, for any integer [int] can give: the DateKey
    invariant holds exactly for the days 1 to 31. *)
Lemma is_DateKey_date_key m d :
  (1 ≤ m ≤ 12)%Z →
  is_DateKey (two_digits m ++ py "-" ++ format_02d d) = true ↔ (1 ≤ d ≤ 31)%Z.
Proof.
  intros Hm. destruct (decide (0 ≤ d ≤ 99)%Z) as [Hd|Hd].
  - rewrite format_02d_two_digits, is_DateKey_two_digits by done.
    apply bool_decide_eq_true.
  - split; [|lia]. change (py "-") with [45]. unfold format_02d, two_digits.
    case_decide.
    + simpl. destruct (zfill 1 _) as [|c [|c' l]]; simpl; try done.
      by rewrite andb_false_r.
    + unfold zfill. pose proof (str_of_N_long (Z.to_N d)) as Hlen.
      rewrite (proj2 (Nat.sub_0_le _ _)) by lia. simpl.
      destruct (str_of_N (Z.to_N d)) as [|c1 [|c2 [|c3 l]]]; simpl in *;
        [lia | lia | lia | done].
Qed.

(** ** [int] on ASCII digits *)

Lemma isspace_digit c : 48 ≤ c ≤ 57 → isspace c = false.
Proof.
  intros Hc.
  assert (c ∈ [48; 49; 50; 51; 52; 53; 54; 55; 56; 57]) as Hin.
  { rewrite !elem_of_cons. lia. }
  repeat (apply elem_of_cons in Hin as [->|Hin]; [by_computation|]).
  by apply elem_of_nil in Hin.
Qed.

Lemma dropwhile_head p c s : p c = false → dropwhile p (c :: s) = c :: s.
Proof. intros Hc. simpl. by rewrite Hc. Qed.

Lemma strip_digits (p : codepoint → bool) s :
  (∀ c, 48 ≤ c ≤ 57 → p c = false) →
  ascii_digits s →
  reverse (dropwhile p (reverse (dropwhile p s))) = s.
Proof.
  intros Hp Hs.
  destruct s as [|c s]; [done|].
  pose proof (Forall_inv Hs) as Hc. simpl in Hc.
  rewrite dropwhile_head by by apply Hp.
  apply Forall_reverse in Hs.
  destruct (reverse (c :: s)) as [|c' s'] eqn:Heq.
  - apply (f_equal reverse) in Heq. by rewrite reverse_involutive in Heq.
  - pose proof (Forall_inv Hs) as Hc'. simpl in Hc'.
    rewrite dropwhile_head by by apply Hp.
    by rewrite <- Heq, reverse_involutive.
Qed.

Lemma strip_ascii_digits s : ascii_digits s → strip s = s.
Proof. apply strip_digits, isspace_digit. Qed.

Lemma int_isspace_digit c : 48 ≤ c ≤ 57 → int_isspace c = false.
Proof. intros Hc. unfold int_isspace. by rewrite isspace_digit. Qed.

Section IntFacts.
Context `{PyRuntime}.

Lemma int_digits_ascii s after_digit acc count :
  ascii_digits s → s ≠ [] →
  int_digits after_digit acc count s
  = Some (digits_value acc s, (count + length s)%nat).
Proof.
  intros Hs. revert after_digit acc count.
  induction Hs as [|c s Hc Hs IH]; intros after_digit acc count Hne; [done|].
  simpl. rewrite decide_False by lia.
  rewrite unicode_decimal_ascii, decide_True by lia.
  destruct s as [|c' s].
  - simpl. do 2 f_equal. lia.
  - rewrite IH by done. simpl. do 2 f_equal. lia.
Qed.

(** A short string of ASCII digits is read as its decimal value. *)
Lemma int_ascii_digits s :
  ascii_digits s → s ≠ [] → (length s ≤ 640)%nat →
  int s = Return (digits_value 0 s).
Proof.
  intros Hs Hne Hlen. unfold int.
  rewrite (strip_digits int_isspace) by (done || apply int_isspace_digit).
  destruct s as [|c s]; [done|].
  pose proof (Forall_inv Hs) as Hc. simpl in Hc.
  rewrite !decide_False by lia.
  rewrite int_digits_ascii by done.
  rewrite decide_False by (simpl in *; lia). done.
Qed.

(** A leading zero does not change what [int] reads. *)
Lemma int_leading_zero s :
  ascii_digits s → s ≠ [] → (length s < 640)%nat →
  int (48 :: s) = int s.
Proof.
  intros Hs Hne Hlen.
  rewrite (int_ascii_digits s), (int_ascii_digits (48 :: s)).
  all: try done; try (simpl; lia).
  apply Forall_cons. split; [lia | done].
Qed.
End IntFacts.

(** What [int] takes and what it refuses: white space at the ends (the
    no-break space too, but not the separator U+001C), a sign, single
    underscores between digits. *)
Example int_literals :
  int (py " 7") = Return 7%Z
  ∧ int [160; 55; 10] = Return 7%Z
  ∧ int [28; 55] = Raise ValueError
  ∧ int (py "+7") = Return 7%Z
  ∧ int (py "-07") = Return (-7)%Z
  ∧ int (py "1_0") = Return 10%Z
  ∧ int (py "1__0") = Raise ValueError
  ∧ int (py "1 0") = Raise ValueError
  ∧ int (py "1.") = Raise ValueError
  ∧ int (py "") = Raise ValueError.
Proof. repeat split; by_computation. Qed.

(** ** The key of a well-formed row *)

(** Claim C3.  A row with two cells or more whose date cell is two tokens,
    the month token a key of the month lexicon and the day token an
    integer from 1 to 31 for [int], is recorded under the month code, a
    hyphen and the day written with two digits, which is a DateKey.  Only
    the integer counts, not how the token spells it: a leading zero in
    front of ASCII digits does not change what [int] reads. *)
Theorem date_key_is_zero_padded (R : PyRuntime)
    row cell0 names_cell rest day month_sv month d result :
  cols row = cell0 :: names_cell :: rest →
  split (str_lower cell0) = [day; month_sv] →
  @MONTH_MAP fetch_py !! month_sv = Some month →
  int day = Return d →
  (1 ≤ d ≤ 31)%Z →
  (∃ names, @parse_row R fetch_py result row
            = Return (<[month ++ py "-" ++ two_digits d := names]> result))
  ∧ is_DateKey (month ++ py "-" ++ two_digits d) = true
  ∧ (∀ digits, ascii_digits digits → digits ≠ [] → (length digits < 640)%nat →
       int (48 :: digits) = int digits).
Proof.
  intros Hcols Htok Hmonth Hint Hd.
  destruct (month_codes _ _ Hmonth) as (m & Hm & ->).
  split; [|split].
  - exists (recorded (date_key (two_digits m) d) names_cell).
    rewrite <- (format_02d_two_digits d) by lia.
    apply (parse_row_dated (H0 := fetch_py)).
    exists cell0, rest, day, month_sv. done.
  - rewrite is_DateKey_two_digits by lia. apply bool_decide_eq_true. lia.
  - apply int_leading_zero.
Qed.

Lemma date_key_is_zero_padded_witness :
  cols row_gotthard = [py "05 Maj"; py "Gotthard, Erhard"]
  ∧ split (str_lower (py "05 Maj")) = [py "05"; py "maj"]
  ∧ MONTH_MAP !! py "maj" = Some (py "05")
  ∧ int (py "05") = Return 5%Z
  ∧ (1 ≤ 5 ≤ 31)%Z
  ∧ ∃ names, parse_row ∅ row_gotthard
             = Return (<[py "05" ++ py "-" ++ two_digits 5 := names]> ∅).
Proof.
  assert (Hcols : cols row_gotthard = [py "05 Maj"; py "Gotthard, Erhard"])
    by by_computation.
  assert (Htok : split (str_lower (py "05 Maj")) = [py "05"; py "maj"])
    by by_computation.
  assert (Hmonth : MONTH_MAP !! py "maj" = Some (py "05")) by by_computation.
  assert (Hint : int (py "05") = Return 5%Z) by by_computation.
  assert (Hd : (1 ≤ 5 ≤ 31)%Z) by lia.
  exact (conj Hcols (conj Htok (conj Hmonth (conj Hint (conj Hd
    (proj1 (date_key_is_zero_padded _ _ _ _ _ _ _ _ _ ∅ Hcols Htok Hmonth Hint Hd))))))).
Defined.

(** ** Where the keys of the table come from *)

Section Provenance.
Context `{PyRuntime} `{ModuleTables}.

(** Every key of the table a run of the loop returns was there at the
    start or is the key of one of the rows. *)
Lemma for_each_parse_row_keys rows acc table k :
  for_each parse_row acc rows = Return table →
  k ∈ dom table →
  k ∈ dom acc
  ∨ ∃ row month d names_cell,
      row ∈ rows ∧ dated row month d names_cell ∧ k = date_key month d.
Proof.
  revert acc. induction rows as [|row rows IH]; intros acc Hrun Hk; simpl in Hrun.
  { simplify_eq. by left. }
  assert (Hlater : ∀ acc',
    for_each parse_row acc' rows = Return table →
    k ∈ dom acc'
    ∨ ∃ row' month d names_cell,
        row' ∈ row :: rows ∧ dated row' month d names_cell ∧ k = date_key month d).
  { intros acc' Hrun'.
    destruct (IH acc' Hrun' Hk) as [?|(row' & month & d & nc & Hin & Hrow & ->)];
      [by left|].
    right. exists row', month, d, nc. split; [by right | done]. }
  destruct (parse_row_cases row) as [Hskip|[(month & d & nc & Hrow)|Hraise]].
  - rewrite Hskip in Hrun. simpl in Hrun. by apply Hlater.
  - rewrite (parse_row_dated _ _ _ _ _ Hrow) in Hrun. simpl in Hrun.
    destruct (Hlater _ Hrun) as [Hin|?]; [|by right].
    rewrite dom_insert_L in Hin. apply elem_of_union in Hin as [Hin|Hin];
      [|by left].
    apply elem_of_singleton in Hin as ->.
    right. exists row, month, d, nc. split; [by left | done].
  - by rewrite Hraise in Hrun.
Qed.

Lemma parse_tables_keys soup table k :
  parse_tables soup = Return table →
  k ∈ dom table →
  ∃ row month d names_cell,
    row ∈ rows_of soup ∧ dated row month d names_cell ∧ k = date_key month d.
Proof.
  rewrite parse_tables_rows. intros Hrun Hk.
  destruct (for_each_parse_row_keys _ _ _ _ Hrun Hk) as [Hin|?]; [|done].
  rewrite dom_empty_L in Hin. by apply not_elem_of_empty in Hin.
Qed.

(** A row that records another key, or none, leaves [key] as it was. *)
Lemma parse_row_other_key row acc acc' key :
  parse_row acc row = Return acc' →
  (∀ month d names_cell, dated row month d names_cell → date_key month d ≠ key) →
  acc' !! key = acc !! key.
Proof.
  intros Hrun Hother.
  destruct (parse_row_cases row) as [Hskip|[(month & d & nc & Hrow)|Hraise]].
  - rewrite Hskip in Hrun. by simplify_eq.
  - rewrite (parse_row_dated _ _ _ _ _ Hrow) in Hrun. simplify_eq.
    apply lookup_insert_ne. by eapply Hother.
  - by rewrite Hraise in Hrun.
Qed.

Lemma for_each_parse_row_other_key rows acc table key :
  for_each parse_row acc rows = Return table →
  (∀ row month d names_cell,
     row ∈ rows → dated row month d names_cell → date_key month d ≠ key) →
  table !! key = acc !! key.
Proof.
  revert acc. induction rows as [|row rows IH]; intros acc Hrun Hother;
    simpl in Hrun.
  { by simplify_eq. }
  destruct (parse_row acc row) as [acc'|e] eqn:Hrow; [|done]. simpl in Hrun.
  rewrite (IH acc' Hrun).
  - eapply parse_row_other_key; [done|].
    intros month d nc. apply Hother. by left.
  - intros row' month d nc Hin. apply Hother. by right.
Qed.
End Provenance.

(** ** The keys of the returned table *)

(** Claim C2, as the code has it.  Every key of the table [parse_tables]
    returns is the key of one of the rows of the document: a two-digit
    month code from 01 to 12, a hyphen, and the integer [int] read from
    the day token in the format [02d].  Nothing checks that integer, so
    the key meets the DateKey invariant exactly when it is a day from 1
    to 31. *)
Theorem keys_are_month_code_and_day (R : PyRuntime) soup table k :
  @parse_tables R fetch_py soup = Return table →
  k ∈ dom table →
  ∃ row m d names_cell,
    row ∈ rows_of soup
    ∧ @dated R fetch_py row (two_digits m) d names_cell
    ∧ (1 ≤ m ≤ 12)%Z
    ∧ k = two_digits m ++ py "-" ++ format_02d d
    ∧ (is_DateKey k = true ↔ (1 ≤ d ≤ 31)%Z).
Proof.
  intros Hrun Hk.
  destruct (parse_tables_keys _ _ _ Hrun Hk)
    as (row & month & d & nc & Hin & Hrow & ->).
  assert (∃ m, (1 ≤ m ≤ 12)%Z ∧ month = two_digits m) as (m & Hm & ->).
  { destruct Hrow as (? & ? & ? & month_sv & _ & _ & Hmonth & _).
    by apply (month_codes month_sv). }
  exists row, m, d, nc. do 4 (split; [done|]).
  by apply is_DateKey_date_key.
Qed.

Lemma keys_are_month_code_and_day_witness :
  parse_tables (document [wikitable [row_kristoffer]])
  = Return {[ py "03-15" := [py "Kristoffer"; py "Christoffer"] ]}
  ∧ py "03-15" ∈ dom ({[ py "03-15" := [py "Kristoffer"; py "Christoffer"] ]}
                        : NamedayTable)
  ∧ ∃ row m d names_cell,
      row ∈ rows_of (document [wikitable [row_kristoffer]])
      ∧ dated row (two_digits m) d names_cell
      ∧ (1 ≤ m ≤ 12)%Z
      ∧ py "03-15" = two_digits m ++ py "-" ++ format_02d d
      ∧ (is_DateKey (py "03-15") = true ↔ (1 ≤ d ≤ 31)%Z).
Proof.
  assert (Hrun : parse_tables (document [wikitable [row_kristoffer]])
                 = Return {[ py "03-15" := [py "Kristoffer"; py "Christoffer"] ]})
    by by_computation.
  assert (Hk : py "03-15" ∈ dom ({[ py "03-15" := [py "Kristoffer"; py "Christoffer"] ]}
                                   : NamedayTable)) by decide_it.
  exact (conj Hrun (conj Hk (keys_are_month_code_and_day _ _ _ _ Hrun Hk))).
Defined.

(** Claim C2 as stated fails: a row dated "99 Januari" is recorded under
    01-99, which is not a DateKey. *)
Lemma day_range_is_not_checked :
  parse_tables (document [wikitable [row_day_99]])
  = Return {[ py "01-99" := [py "Erik"] ]}
  ∧ py "01-99" ∈ dom ({[ py "01-99" := [py "Erik"] ]} : NamedayTable)
  ∧ is_DateKey (py "01-99") = false.
Proof. split; [by_computation | split; [decide_it | by_computation]]. Qed.

(** ** One run, and rows with the same key *)

(** Claim C9.  [parse_tables] is a function of the document alone: two
    runs on the same document give the same outcome, and nothing gets
    into the table but what the rows of that document record.  When
    several rows compose the same key, the table holds what the last of
    them records. *)
Theorem extraction_is_a_function_last_write_wins (R : PyRuntime) (T : ModuleTables)
    soup :
  (∀ first second,
     parse_tables soup = first → parse_tables soup = second → first = second)
  ∧ (∀ table k,
       parse_tables soup = Return table → k ∈ dom table →
       ∃ row month d names_cell,
         row ∈ rows_of soup ∧ dated row month d names_cell ∧ k = date_key month d)
  ∧ (∀ before row after month d names_cell table,
       rows_of soup = before ++ row :: after →
       dated row month d names_cell →
       (∀ later month' d' names_cell',
          later ∈ after → dated later month' d' names_cell' →
          date_key month' d' ≠ date_key month d) →
       parse_tables soup = Return table →
       table !! date_key month d = Some (recorded (date_key month d) names_cell)).
Proof.
  split; [|split].
  - by intros first second <- <-.
  - apply parse_tables_keys.
  - intros before row after month d nc table Hrows Hrow Hlast.
    rewrite parse_tables_rows, Hrows, for_each_app.
    destruct (for_each parse_row ∅ before) as [acc|e]; [|done]. simpl.
    rewrite (parse_row_dated _ _ _ _ _ Hrow). simpl. intros Hrun.
    rewrite (for_each_parse_row_other_key _ _ _ _ Hrun Hlast).
    apply lookup_insert_eq.
Qed.

Lemma extraction_is_a_function_last_write_wins_witness :
  rows_of (document [wikitable [row_kristoffer; row_christel]])
  = [row_kristoffer] ++ row_christel :: []
  ∧ dated row_christel (py "03") 15 (py "Christel")
  ∧ parse_tables (document [wikitable [row_kristoffer; row_christel]])
    = Return {[ py "03-15" := [py "Christel"] ]}
  ∧ ({[ py "03-15" := [py "Christel"] ]} : NamedayTable) !! date_key (py "03") 15
    = Some (recorded (date_key (py "03") 15) (py "Christel")).
Proof.
  assert (Hrows : rows_of (document [wikitable [row_kristoffer; row_christel]])
                  = [row_kristoffer] ++ row_christel :: []) by by_computation.
  assert (Hrow : dated row_christel (py "03") 15 (py "Christel")).
  { exists (py "15 mars"), [], (py "15"), (py "mars").
    repeat split; by_computation. }
  assert (Hrun : parse_tables (document [wikitable [row_kristoffer; row_christel]])
                 = Return {[ py "03-15" := [py "Christel"] ]}) by by_computation.
  refine (conj Hrows (conj Hrow (conj Hrun
    (proj2 (proj2 (extraction_is_a_function_last_write_wins _ _ _))
       _ _ _ _ _ _ _ Hrows Hrow _ Hrun)))).
  intros later month' d' nc' Hin. by apply elem_of_nil in Hin.
Defined.

(** ** A day token that is not a number *)

(** Claim C1 fails on the code.  A row with two cells, a month of the
    lexicon and a day token that [int] refuses (here "1." with its period)
    is not skipped: line 79 raises [ValueError], and the rows recorded
    before it are lost with the run. *)
Theorem non_numeric_day_raises :
  parse_row ∅ row_day_with_period = Raise ValueError
  ∧ parse_tables (document [wikitable [row_kristoffer; row_day_with_period]])
    = Raise ValueError.
Proof. split; by_computation. Qed.

(** In general: once the rows before it are through, a row with a month
    of the lexicon and a day token [int] refuses ends the run with
    [ValueError]. *)
Lemma unreadable_day_aborts (R : PyRuntime) (T : ModuleTables)
    soup before row after acc cell0 names_cell rest day month_sv c month :
  rows_of soup = before ++ row :: after →
  for_each parse_row ∅ before = Return acc →
  cols row = cell0 :: names_cell :: rest →
  split (str_lower cell0) = [day; month_sv] →
  MONTH_MAP !! month_sv = Some (c :: month) →
  int day = Raise ValueError →
  parse_tables soup = Raise ValueError.
Proof.
  intros Hrows Hbefore Hcols Htok Hmonth Hint.
  rewrite parse_tables_rows, Hrows, for_each_app, Hbefore. simpl.
  unfold parse_row. by rewrite Hcols, Htok, Hmonth, Hint.
Qed.


(** ** The refresh route *)

(** Claim C8.  When the key is accepted, the page is fetched and the
    extraction returns the empty table, [refresh_namedays] raises the
    500 error "Failed to fetch data from Wikipedia" and leaves everything
    as it was: the served table, the key-value store and the JSON file. *)
Theorem empty_extraction_keeps_served_table (R : PyRuntime) (T : ModuleTables)
    API_KEY x_api_key html (s : Service) :
  verify_api_key API_KEY x_api_key = Return () →
  parse_tables html = Return ∅ →
  refresh_namedays API_KEY (Return html) x_api_key s
  = (Raise (HTTPException 500 "Failed to fetch data from Wikipedia"), s).
Proof.
  intros Hkey Hdata. unfold refresh_namedays. rewrite Hkey, Hdata.
  by rewrite decide_True.
Qed.

Lemma empty_extraction_keeps_served_table_witness :
  verify_api_key (py "hemlig") (py "hemlig") = Return ()
  ∧ parse_tables page_without_tables = Return ∅
  ∧ refresh_namedays (py "hemlig") (Return page_without_tables) (py "hemlig") serving
    = (Raise (HTTPException 500 "Failed to fetch data from Wikipedia"), serving).
Proof.
  assert (Hkey : verify_api_key (py "hemlig") (py "hemlig") = Return ())
    by by_computation.
  assert (Hdata : parse_tables page_without_tables = Return ∅) by by_computation.
  exact (conj Hkey (conj Hdata
    (empty_extraction_keeps_served_table _ _ _ _ _ serving Hkey Hdata))).
Defined.

(** A table with an entry does replace what was served. *)
Example refresh_replaces_served_table :
  refresh_namedays (py "hemlig")
    (Return (document [wikitable [row_christel]])) (py "hemlig") serving
  = (Return {| status := "success"; total_dates := 1; total_names := 1 |},
     {| NAMEDAYS := {[ py "03-15" := [py "Christel"] ]};
        kv := None;
        json_file := Some {[ py "03-15" := [py "Christel"] ]} |}).
Proof. by_computation. Qed.

(** ** The date route *)

(** Claim C10.  [get_date] takes 29 February, year 2000 being a leap
    year, and answers with what the served table holds under 02-29 (the
    empty list when it holds nothing); 30 February and 31 April are turned
    down with the 400 error "Invalid date". *)
Theorem get_date_checks_against_year_2000 (served : NamedayTable) :
  is_leap 2000 = true
  ∧ get_date served 2 29
    = Return {| date := py "02-29";
                names := default [] (served !! py "02-29");
                count := length (default [] (served !! py "02-29")) |}
  ∧ get_date served 2 30 = Raise (HTTPException 400 "Invalid date")
  ∧ get_date served 4 31 = Raise (HTTPException 400 "Invalid date").
Proof.
  split; [by_computation|]. unfold get_date.
  rewrite !decide_False by lia.
  replace (datetime 2000 2 29) with (Return (2000, 2, 29)%Z) by by_computation.
  replace (datetime 2000 2 30) with (@Raise (Z * Z * Z) ValueError)
    by by_computation.
  replace (datetime 2000 4 31) with (@Raise (Z * Z * Z) ValueError)
    by by_computation.
  done.
Qed.

(** * Further properties of the extractor *)

(** ** Trimming twice, and fragments between commas *)

Lemma dropwhile_head_false p s c r : dropwhile p s = c :: r → p c = false.
Proof.
  induction s as [|a s IH]; simpl; [done|].
  destruct (p a) eqn:Ha; [done|]. intros Hs. by simplify_eq.
Qed.

Lemma dropwhile_idem p s : dropwhile p (dropwhile p s) = dropwhile p s.
Proof.
  destruct (dropwhile p s) as [|c r] eqn:Hs; [done|].
  apply dropwhile_head. by eapply dropwhile_head_false.
Qed.

(** What [strip] returns is already stripped. *)
Lemma strip_idem s : strip (strip s) = strip s.
Proof.
  unfold strip, lstrip, rstrip.
  set (u := dropwhile isspace s).
  set (w := dropwhile isspace (reverse u)).
  assert (Hhead : dropwhile isspace (reverse w) = reverse w).
  { destruct (reverse w) as [|c t'] eqn:Ht; [done|].
    apply dropwhile_head.
    destruct (dropwhile_suffix isspace (reverse u)) as [pre Hpre].
    fold w in Hpre. apply (f_equal reverse) in Hpre.
    rewrite reverse_involutive, reverse_app, Ht in Hpre.
    by eapply (dropwhile_head_false isspace s). }
  rewrite Hhead, reverse_involutive. unfold w at 1.
  by rewrite dropwhile_idem.
Qed.

Lemma elem_of_strip x s : x ∈ strip s → x ∈ s.
Proof.
  intros Hx. destruct (strip_infix s) as (before & after & Hs). rewrite Hs.
  apply elem_of_app. right. apply elem_of_app. by left.
Qed.

Lemma split_on_fragments sep s fragment :
  fragment ∈ split_on sep s → sep ∉ fragment.
Proof.
  revert fragment. induction s as [|c s IH]; intros fragment; simpl.
  - intros ->%list_elem_of_singleton. apply not_elem_of_nil.
  - case_decide as Hc.
    + intros [->|Hin]%elem_of_cons; [apply not_elem_of_nil | by apply IH].
    + destruct (split_on sep s) as [|w ws].
      * intros ->%list_elem_of_singleton.
        apply not_elem_of_cons. split; [done | apply not_elem_of_nil].
      * intros [->|Hin]%elem_of_cons.
        -- apply not_elem_of_cons. split; [done|]. apply IH. by left.
        -- apply IH. by right.
Qed.

(** A name of either path is a fragment between commas, trimmed, and
    not empty. *)
Lemma strip_annotations_names names_cell name :
  name ∈ strip_annotations names_cell →
  name ≠ [] ∧ strip name = name ∧ (44 ∉ name) ∧ ¬ parenthesized name.
Proof.
  unfold strip_annotations.
  intros [Hne (fragment & -> & Hin)%list_elem_of_fmap]%list_elem_of_filter.
  split; [done|]. split; [apply strip_idem|]. split.
  - intros Hc. apply (split_on_fragments _ _ _ Hin).
    by apply re_sub_junk_elem, elem_of_strip.
  - intros Hp. apply parenthesized_strip in Hp.
    by apply re_sub_junk_not_parenthesized in Hp.
Qed.

Lemma split_names_names names_cell name :
  name ∈ split_names names_cell →
  name ≠ [] ∧ strip name = name ∧ (44 ∉ name).
Proof.
  unfold split_names.
  intros [Hne (fragment & -> & Hin)%list_elem_of_fmap]%list_elem_of_filter.
  split; [done|]. split; [apply strip_idem|].
  intros Hc. apply (split_on_fragments _ _ _ Hin). by apply elem_of_strip.
Qed.

(** ** The entries of the returned table *)

Section Entries.
Context `{PyRuntime} `{ModuleTables}.

Lemma for_each_parse_row_entries rows acc table k names :
  for_each parse_row acc rows = Return table →
  table !! k = Some names →
  acc !! k = Some names
  ∨ ∃ row month d names_cell,
      row ∈ rows ∧ dated row month d names_cell
      ∧ k = date_key month d ∧ names = recorded k names_cell.
Proof.
  revert acc. induction rows as [|row rows IH]; intros acc Hrun Hk; simpl in Hrun.
  { simplify_eq. by left. }
  destruct (parse_row acc row) as [acc'|e] eqn:Hstep; [|done]. simpl in Hrun.
  destruct (IH acc' Hrun Hk) as [Hacc|(row' & month & d & nc & Hin & Hrow & -> & ->)].
  - destruct (parse_row_cases row) as [Hskip|[(month & d & nc & Hrow)|Hraise]].
    + rewrite Hskip in Hstep. simplify_eq. by left.
    + rewrite (parse_row_dated _ _ _ _ _ Hrow) in Hstep. simplify_eq.
      destruct (decide (date_key month d = k)) as [<-|Hne].
      * rewrite lookup_insert_eq in Hacc. simplify_eq.
        right. exists row, month, d, nc. split; [by left | done].
      * rewrite lookup_insert_ne in Hacc by done. by left.
    + by rewrite Hraise in Hstep.
  - right. exists row', month, d, nc. split; [by right | done].
Qed.

Lemma parse_tables_entries soup table k names :
  parse_tables soup = Return table →
  table !! k = Some names →
  ∃ row month d names_cell,
    row ∈ rows_of soup ∧ dated row month d names_cell
    ∧ k = date_key month d ∧ names = recorded k names_cell.
Proof.
  rewrite parse_tables_rows. intros Hrun Hk.
  by destruct (for_each_parse_row_entries _ _ _ _ _ Hrun Hk) as [Hin|?].
Qed.

(** Property X1.
    Every entry of the table [parse_tables] returns is the entry one row
    of the document records: the key composed from its date cell and the
    list made from its names cell. *)
Theorem table_entries_come_from_rows soup table k names :
  parse_tables soup = Return table →
  table !! k = Some names →
  ∃ row month d names_cell,
    row ∈ rows_of soup ∧ dated row month d names_cell
    ∧ k = date_key month d ∧ names = recorded k names_cell.
Proof. apply parse_tables_entries. Qed.

Lemma recorded_names key names_cell name :
  name ∈ recorded key names_cell →
  name ≠ [] ∧ strip name = name ∧ (44 ∉ name).
Proof.
  unfold recorded. repeat case_decide.
  - by intros ?%elem_of_nil.
  - rewrite junk_names_spec. intros Hin.
    apply strip_annotations_names in Hin. tauto.
  - rewrite plain_names_spec. apply split_names_names.
Qed.

(** Property X2.
    Every name of the returned table is not empty, has no white space at
    either end (stripping it again gives it back) and no comma. *)
Theorem names_are_trimmed_fragments soup table k names name :
  parse_tables soup = Return table →
  table !! k = Some names →
  name ∈ names →
  name ≠ [] ∧ strip name = name ∧ (44 ∉ name).
Proof.
  intros Hrun Hk Hname.
  destruct (parse_tables_entries _ _ _ _ Hrun Hk)
    as (row & month & d & nc & _ & _ & _ & ->).
  by eapply recorded_names.
Qed.

Lemma force_empty_default soup table k :
  parse_tables soup = Return table →
  k ∈ EMPTY_DATES →
  default [] (table !! k) = [].
Proof.
  intros Hrun Hk. destruct (table !! k) as [names|] eqn:Hnames; [|done].
  destruct (parse_tables_entries _ _ _ _ Hrun Hnames)
    as (row & month & d & nc & _ & _ & _ & ->).
  simpl. unfold recorded. by rewrite decide_True.
Qed.

(** Property X3.
    In the returned table a force-empty date never has a name, whatever
    the rows of the document say and however often the date occurs. *)
Theorem force_empty_dates_hold_no_names soup table k :
  parse_tables soup = Return table →
  k ∈ EMPTY_DATES →
  default [] (table !! k) = [].
Proof. apply force_empty_default. Qed.

(** Property X4.
    In the returned table no name of a date with junk has a
    parenthesized part. *)
Theorem junk_dates_hold_no_annotations soup table k names :
  parse_tables soup = Return table →
  k ∈ DATES_WITH_JUNK →
  table !! k = Some names →
  Forall (λ name, ¬ parenthesized name) names.
Proof.
  intros Hrun Hk Hnames.
  destruct (parse_tables_entries _ _ _ _ Hrun Hnames)
    as (row & month & d & nc & _ & _ & _ & ->).
  unfold recorded. case_decide; [by constructor|]. rewrite decide_True by done.
  rewrite junk_names_spec. apply Forall_forall. intros name Hin.
  apply strip_annotations_names in Hin. tauto.
Qed.


End Entries.

(** * Properties of the routes *)

(** ** Dates *)

(** No month of any year is longer than it is in 2000. *)
Lemma days_in_month_2000 year month :
  (1 ≤ month ≤ 12)%Z →
  (days_in_month year month ≤ days_in_month 2000 month ≤ 31)%Z.
Proof.
  intros Hm.
  assert (month ∈ [1; 2; 3; 4; 5; 6; 7; 8; 9; 10; 11; 12]%Z) as Hin.
  { rewrite !elem_of_cons. lia. }
  unfold days_in_month. replace (is_leap 2000) with true by by_computation.
  repeat (apply elem_of_cons in Hin as [->|Hin];
          [destruct (is_leap year); simpl; lia|]).
  by apply elem_of_nil in Hin.
Qed.

Lemma get_date_valid (served : NamedayTable) month day :
  (1 ≤ month ≤ 12)%Z → (1 ≤ day ≤ days_in_month 2000 month)%Z →
  get_date served month day = Return (get_today served month day).
Proof.
  intros Hm Hd. pose proof (days_in_month_2000 2000 month Hm) as Hdim.
  unfold get_date, datetime. rewrite !decide_False by lia.
  by rewrite !decide_True by lia.
Qed.

Lemma get_date_invalid (served : NamedayTable) month day :
  ¬ ((1 ≤ month ≤ 12)%Z ∧ (1 ≤ day ≤ days_in_month 2000 month)%Z) →
  ∃ detail, get_date served month day = Raise (HTTPException 400 detail).
Proof.
  intros Hbad. unfold get_date.
  case_decide; [by eauto|]. case_decide; [by eauto|].
  unfold datetime. rewrite !decide_True by lia.
  rewrite decide_False by lia. by eauto.
Qed.

Lemma get_today_key (served : NamedayTable) month day :
  (1 ≤ month ≤ 12)%Z → (1 ≤ day ≤ 31)%Z →
  is_DateKey (date (get_today served month day)) = true.
Proof.
  intros Hm Hd. unfold get_today. cbv zeta. cbn [date].
  rewrite !format_02d_two_digits by lia.
  rewrite is_DateKey_two_digits by lia. apply bool_decide_eq_true. lia.
Qed.

(** Property X7.
    [get_date] answers exactly for the days of the year 2000, with what
    [get_today] would answer on that day, under a key that meets the
    DateKey invariant; every other pair of integers gets a 400 error. *)
Theorem get_date_answers_the_days_of_2000 (served : NamedayTable) month day :
  ((1 ≤ month ≤ 12)%Z ∧ (1 ≤ day ≤ days_in_month 2000 month)%Z →
   get_date served month day = Return (get_today served month day)
   ∧ is_DateKey (date (get_today served month day)) = true)
  ∧ (¬ ((1 ≤ month ≤ 12)%Z ∧ (1 ≤ day ≤ days_in_month 2000 month)%Z) →
     ∃ detail, get_date served month day = Raise (HTTPException 400 detail)).
Proof.
  split; [|apply get_date_invalid].
  intros [Hm Hd]. pose proof (days_in_month_2000 2000 month Hm) as Hdim.
  split; [by apply get_date_valid | apply get_today_key; lia].
Qed.

(** Property X8.
    Whatever day it is, [get_date] asked for today's month and day
    answers as [get_today] does: a date any year has is a date of 2000. *)
Theorem today_is_a_date_get_date_takes (served : NamedayTable) year month day stamp :
  datetime year month day = Return stamp →
  get_date served month day = Return (get_today served month day).
Proof.
  unfold datetime. repeat case_decide; try done. intros _.
  pose proof (days_in_month_2000 year month).
  apply get_date_valid; lia.
Qed.

Section Served.
Context `{PyRuntime} `{ModuleTables}.

Lemma last_row_is_kept soup before row after month d names_cell table :
  rows_of soup = before ++ row :: after →
  dated row month d names_cell →
  (∀ later month' d' names_cell',
     later ∈ after → dated later month' d' names_cell' →
     date_key month' d' ≠ date_key month d) →
  parse_tables soup = Return table →
  table !! date_key month d = Some (recorded (date_key month d) names_cell).
Proof.
  intros Hrows Hrow Hlast.
  rewrite parse_tables_rows, Hrows, for_each_app.
  destruct (for_each parse_row ∅ before) as [acc|e]; [|done]. simpl.
  rewrite (parse_row_dated _ _ _ _ _ Hrow). simpl. intros Hrun.
  rewrite (for_each_parse_row_other_key _ _ _ _ Hrun Hlast).
  apply lookup_insert_eq.
Qed.

(** Property X9.
    From the page to the route: for the last row of the document dated
    with month code [m] and day [d], a day of the year 2000, [get_date m d]
    on the extracted table answers with the names that row records. *)
Theorem get_date_serves_the_last_row soup before row after m d names_cell table :
  parse_tables soup = Return table →
  rows_of soup = before ++ row :: after →
  dated row (two_digits m) d names_cell →
  (∀ later month' d' names_cell',
     later ∈ after → dated later month' d' names_cell' →
     date_key month' d' ≠ date_key (two_digits m) d) →
  (1 ≤ m ≤ 12)%Z →
  (1 ≤ d ≤ days_in_month 2000 m)%Z →
  get_date table m d
  = Return {| date := date_key (two_digits m) d;
              names := recorded (date_key (two_digits m) d) names_cell;
              count := length (recorded (date_key (two_digits m) d) names_cell) |}.
Proof.
  intros Hrun Hrows Hrow Hlast Hm Hd.
  rewrite get_date_valid by done.
  unfold get_today. rewrite (format_02d_two_digits m) by lia.
  fold (date_key (two_digits m) d).
  by rewrite (last_row_is_kept _ _ _ _ _ _ _ _ Hrows Hrow Hlast Hrun).
Qed.

(** Property X10.
    On an extracted table [get_date] has no name to give for a
    force-empty date. *)
Theorem get_date_of_a_force_empty_date soup table month day answer :
  parse_tables soup = Return table →
  get_date table month day = Return answer →
  date answer ∈ EMPTY_DATES →
  names answer = [] ∧ count answer = 0%nat.
Proof.
  intros Hrun Hget Hempty.
  destruct (decide ((1 ≤ month ≤ 12)%Z ∧ (1 ≤ day ≤ days_in_month 2000 month)%Z))
    as [Hok|Hbad].
  - destruct Hok as [Hm Hd]. rewrite get_date_valid in Hget by done.
    injection Hget as <-. unfold get_today in *. cbv zeta in *.
    cbn [date names count] in *.
    by rewrite (force_empty_default _ _ _ Hrun Hempty).
  - destruct (get_date_invalid table month day Hbad) as [detail Hraise].
    by rewrite Hraise in Hget.
Qed.
End Served.

(** ** Months *)

(** The dictionary a loop over the items builds by keeping those whose
    key passes [test]. *)
Lemma foldl_keep_lookup {A} (test : pystr → option A)
    (items : list (pystr * list pystr)) (acc : NamedayTable) k :
  NoDup items.*1 →
  foldl (λ kept item,
           match test item.1 with
           | Some _ => <[item.1 := item.2]> kept
           | None => kept
           end)
        acc items !! k
  = match (list_to_map items : NamedayTable) !! k with
    | Some names => match test k with Some _ => Some names | None => acc !! k end
    | None => acc !! k
    end.
Proof.
  revert acc. induction items as [|[k0 names0] items IH]; intros acc Hnodup.
  { simpl. by rewrite lookup_empty. }
  apply NoDup_cons in Hnodup as [Hk0 Hnodup]. simpl.
  rewrite IH by done. destruct (decide (k0 = k)) as [->|Hne].
  - rewrite lookup_insert_eq.
    rewrite (not_elem_of_list_to_map_1 _ k) by done.
    destruct (test k); [by rewrite lookup_insert_eq | done].
  - rewrite lookup_insert_ne by done.
    assert (match test k0 with Some _ => <[k0:=names0]> acc | None => acc end !! k
            = acc !! k) as ->; [|done].
    destruct (test k0); [by rewrite lookup_insert_ne | done].
Qed.

Lemma get_month_lookup (served : NamedayTable) month answer k :
  get_month served month = Return answer →
  ByMonth.namedays answer !! k
  = match startswith k (format_02d month ++ py "-") with
    | Some _ => served !! k
    | None => None
    end.
Proof.
  unfold get_month. case_decide; [done|]. intros [= <-]. cbn [ByMonth.namedays].
  rewrite (foldl_keep_lookup (λ key, startswith key (format_02d month ++ py "-")))
    by apply NoDup_fst_map_to_list.
  rewrite list_to_map_to_list, lookup_empty.
  destruct (served !! k); by destruct (startswith k _).
Qed.

(** Property X11.
    [get_month] answers for the months 1 to 12, and with a 400 error for
    any other integer.  Its dictionary holds, unchanged, exactly the
    entries of the served table whose key starts with the two digits of
    the month and a hyphen, and its count is their number. *)
Theorem get_month_keeps_the_entries_of_the_month (served : NamedayTable) month :
  ((1 ≤ month ≤ 12)%Z →
   ∃ answer,
     get_month served month = Return answer
     ∧ ByMonth.month answer = month
     ∧ ByMonth.count answer = size (ByMonth.namedays answer)
     ∧ ByMonth.namedays answer ⊆ served
     ∧ ∀ k, k ∈ dom (ByMonth.namedays answer)
            ↔ k ∈ dom served ∧ is_Some (startswith k (format_02d month ++ py "-")))
  ∧ (¬ (1 ≤ month ≤ 12)%Z →
     get_month served month
     = Raise (HTTPException 400 "Month must be between 1 and 12")).
Proof.
  split.
  - intros Hm. destruct (get_month served month) as [answer|e] eqn:Hget.
    2: { unfold get_month in Hget. by rewrite decide_False in Hget by lia. }
    exists answer. split; [done|].
    pose proof (λ k, get_month_lookup _ _ _ k Hget) as Hlookup.
    unfold get_month in Hget. rewrite decide_False in Hget by lia.
    injection Hget as <-. cbn [ByMonth.month ByMonth.count ByMonth.namedays] in *.
    do 2 (split; [done|]). split.
    + apply map_subseteq_spec. intros k names'. rewrite Hlookup.
      by destruct (startswith k _).
    + intros k. rewrite !elem_of_dom, Hlookup.
      destruct (startswith k _); [by intuition eauto|].
      split; [by intros [? ?] | by intros [_ [? ?]]].
  - intros Hm. unfold get_month. by rewrite decide_True by lia.
Qed.

Lemma startswith_month m m' rest :
  (1 ≤ m ≤ 12)%Z → (1 ≤ m' ≤ 12)%Z →
  is_Some (startswith (two_digits m ++ py "-" ++ rest) (format_02d m' ++ py "-"))
  ↔ m' = m.
Proof.
  intros Hm Hm'. rewrite format_02d_two_digits by lia. split.
  - unfold two_digits. change (py "-") with [45]. simpl.
    repeat case_decide; try by intros [? ?].
    intros _. Z.div_mod_to_equations. lia.
  - intros ->. unfold two_digits. change (py "-") with [45]. simpl.
    repeat case_decide; try done. by destruct rest; eexists.
Qed.

(** Property X12.
    The months share out an extracted table: every key of the table
    [parse_tables] returns is in the answer of [get_month] for one month
    from 1 to 12 and for no other, whatever its day part. *)
Theorem every_key_is_in_one_month (R : PyRuntime) soup table k :
  @parse_tables R fetch_py soup = Return table →
  k ∈ dom table →
  ∃ m, (1 ≤ m ≤ 12)%Z
       ∧ ∀ month answer,
           get_month table month = Return answer →
           (k ∈ dom (ByMonth.namedays answer) ↔ month = m).
Proof.
  intros Hrun Hk.
  destruct (parse_tables_keys _ _ _ Hrun Hk)
    as (row & code & d & nc & _ & Hrow & ->).
  destruct Hrow as (? & ? & ? & month_sv & _ & _ & Hcode & _).
  apply month_codes in Hcode as (m & Hm & ->).
  exists m. split; [done|]. intros month answer Hget.
  assert (1 ≤ month ≤ 12)%Z as Hmonth.
  { unfold get_month in Hget. case_decide; [done | lia]. }
  rewrite elem_of_dom, (get_month_lookup _ _ _ _ Hget).
  unfold date_key in *. rewrite <- (startswith_month m month (format_02d d)) by done.
  apply elem_of_dom in Hk.
  destruct (startswith _ _); [by split; eauto|].
  split; [by intros [? ?] | by intros [? ?]].
Qed.

(** ** Names *)

Section NamesFacts.
Context `{PyRuntime}.

(** What the loop over the items of [get_name] has appended in the end. *)
Lemma get_name_results name_lower (items : list (pystr * list pystr)) acc :
  foldl (λ results item,
           match first_match name_lower item.2 with
           | Some n => results ++ [{| ByName.date := item.1; ByName.name := n |}]
           | None => results
           end) acc items
  = acc ++ omap (λ item,
                   (λ n, {| ByName.date := item.1; ByName.name := n |})
                     <$> first_match name_lower item.2) items.
Proof.
  revert acc. induction items as [|item items IH]; intros acc; simpl.
  - by rewrite app_nil_r.
  - rewrite IH. destruct (first_match _ _); [by rewrite <- app_assoc | done].
Qed.

Lemma first_match_Some name_lower names n :
  first_match name_lower names = Some n →
  ∃ before after,
    names = before ++ n :: after
    ∧ str_lower n = name_lower
    ∧ ∀ x, x ∈ before → str_lower x ≠ name_lower.
Proof.
  induction names as [|x names IH]; simpl; [done|]. case_decide as Hx.
  - intros [= ->]. exists [], names. split; [done|]. split; [done|].
    by intros ? ?%elem_of_nil.
  - intros (before & after & -> & Hn & Hbefore)%IH.
    exists (x :: before), after. split; [done|]. split; [done|].
    intros y [->|Hy]%elem_of_cons; auto.
Qed.

Lemma first_match_None name_lower names n :
  first_match name_lower names = None → n ∈ names → str_lower n ≠ name_lower.
Proof.
  induction names as [|x names IH]; simpl; [by intros _ ?%elem_of_nil|].
  case_decide; [done|]. intros Hnone [->|Hn]%elem_of_cons; auto.
Qed.

(** Property X13.
    [get_name] compares in lower case.  When it answers, its list has
    one item for each date of the served table that has such a name and
    for no other date, no date twice, and the name given for a date is the
    first of that date that matches; its count is the length of the list.
    It answers 404, quoting the name asked for, exactly when no name of
    the table matches. *)
Theorem get_name_finds_every_date (served : NamedayTable) asked :
  match get_name served asked with
  | ByName.Found answer =>
      ByName.asked answer = asked
      ∧ ByName.count answer = length (ByName.dates answer)
      ∧ (0 < ByName.count answer)%nat
      ∧ NoDup (ByName.date <$> ByName.dates answer)
      ∧ (∀ item, item ∈ ByName.dates answer →
           ∃ before after,
             served !! ByName.date item = Some (before ++ ByName.name item :: after)
             ∧ str_lower (ByName.name item) = str_lower asked
             ∧ ∀ x, x ∈ before → str_lower x ≠ str_lower asked)
      ∧ (∀ k names n,
           served !! k = Some names → n ∈ names →
           str_lower n = str_lower asked →
           ∃ item, item ∈ ByName.dates answer ∧ ByName.date item = k)
  | ByName.NotFound detail =>
      detail = py "Name '" ++ asked ++ py "' not found in nameday calendar"
      ∧ ∀ k names n,
          served !! k = Some names → n ∈ names →
          str_lower n ≠ str_lower asked
  end.
Proof.
  unfold get_name. cbv zeta. rewrite get_name_results, app_nil_l.
  set (found := omap _ (map_to_list served)).
  assert (Hitem : ∀ item, item ∈ found ↔
    ∃ names, served !! ByName.date item = Some names
             ∧ first_match (str_lower asked) names = Some (ByName.name item)).
  { intros item. unfold found. rewrite list_elem_of_omap. split.
    - intros ([k names'] & Hin%elem_of_map_to_list & Hitem). simpl in Hitem.
      destruct (first_match _ _) as [n|] eqn:Hn; [|done].
      injection Hitem as <-. by exists names'.
    - intros (names' & Hk & Hn). exists (ByName.date item, names').
      split; [by apply elem_of_map_to_list|]. simpl. rewrite Hn.
      by destruct item. }
  assert (Hdates : NoDup (ByName.date <$> found)).
  { unfold found. clear Hitem found.
    generalize (NoDup_fst_map_to_list served).
    induction (map_to_list served) as [|[k names'] items IH]; intros Hnodup;
      simpl; [constructor|].
    apply NoDup_cons in Hnodup as [Hk Hnodup].
    destruct (first_match _ _) as [n|]; simpl; [|by apply IH].
    apply NoDup_cons. split; [|by apply IH].
    intros (item & Hdate & Hin)%list_elem_of_fmap. apply Hk.
    apply list_elem_of_omap in Hin as ([k' names''] & Hin & Hitem). simpl in *.
    destruct (first_match _ names'') as [n'|]; [|done].
    injection Hitem as <-. simpl in Hdate. subst k'.
    apply list_elem_of_fmap. by exists (k, names''). }
  destruct found as [|item0 found'] eqn:Hfound.
  - split; [done|]. intros k names' n Hk Hn Heq.
    destruct (first_match (str_lower asked) names') as [n'|] eqn:Hfirst.
    + pose proof (proj2 (Hitem {| ByName.date := k; ByName.name := n' |})) as Hin.
      simpl in Hin. by apply elem_of_nil in Hin; [|eauto].
    + by eapply first_match_None.
  - simpl. do 2 (split; [done|]). split; [lia|]. split; [done|]. split.
    + intros item (names' & Hk & Hn)%Hitem.
      apply first_match_Some in Hn as (before & after & -> & Heq & Hbefore).
      by exists before, after.
    + intros k names' n Hk Hn Heq.
      destruct (first_match (str_lower asked) names') as [n'|] eqn:Hfirst.
      * exists {| ByName.date := k; ByName.name := n' |}. split; [|done].
        apply Hitem. by exists names'.
      * by destruct (first_match_None _ _ n Hfirst Hn).
Qed.
End NamesFacts.

(** ** Refreshing *)

Section RefreshFacts.
Context `{PyRuntime} `{ModuleTables}.


(** Property X15.
    A refresh that succeeds extracted a table with at least one date.
    From then on that table is what is served, what [load_namedays] finds
    at the next start, and what [get_all] counts; the store in use is the
    only one written. *)
Theorem successful_refresh_is_served_and_stored
    API_KEY page x_api_key (s s' : Service) answer :
  refresh_namedays API_KEY page x_api_key s = (Return answer, s') →
  ∃ html data,
    page = Return html
    ∧ parse_tables html = Return data
    ∧ data ≠ ∅
    ∧ NAMEDAYS s' = data
    ∧ load_namedays s' = data
    ∧ match kv s with
      | Some _ => kv s' = Some (Some data) ∧ json_file s' = json_file s
      | None => kv s' = None ∧ json_file s' = Some data
      end
    ∧ status answer = "success"
    ∧ total_dates answer = All.total_dates (get_all (NAMEDAYS s'))
    ∧ total_names answer = All.total_names (get_all (NAMEDAYS s'))
    ∧ (0 < total_dates answer)%nat.
Proof.
  unfold refresh_namedays.
  destruct (verify_api_key _ _); [|done].
  destruct page as [html|]; [|done].
  destruct (parse_tables html) as [data|] eqn:Hdata; [|done].
  case_decide as Hempty; [done|]. intros [= <- <-].
  exists html, data. do 4 (split; [done|]).
  split; [by unfold load_namedays; destruct (kv s)|].
  split; [by destruct (kv s)|].
  do 3 (split; [done|]). cbn.
  destruct (decide (size data = 0%nat)) as [Hsize|]; [|lia].
  by apply map_size_empty_iff in Hsize.
Qed.

(** Property X16.
    The key is checked before anything else: with no key configured
    every header, the empty one too, gets the 500 error, and with a key
    configured every other header gets the 401 error, whatever the page
    would have been; nothing changes. *)
Theorem refresh_checks_the_key_first API_KEY page x_api_key (s : Service) :
  (API_KEY = [] →
   refresh_namedays API_KEY page x_api_key s
   = (Raise (HTTPException 500 "API key not configured on server"), s))
  ∧ (API_KEY ≠ [] → x_api_key ≠ API_KEY →
     refresh_namedays API_KEY page x_api_key s
     = (Raise (HTTPException 401 "Invalid API key"), s)).
Proof.
  unfold refresh_namedays, verify_api_key. split.
  - by intros ->.
  - intros Hkey Hx. destruct API_KEY; [done|]. by rewrite decide_True.
Qed.
End RefreshFacts.

(** ** When the extraction fails *)

Section Failure.
Context `{PyRuntime} `{ModuleTables}.




End Failure.

(** * The further properties at work *)

Lemma table_entries_come_from_rows_witness :
  parse_tables page_kristoffer = Return table_kristoffer
  ∧ table_kristoffer !! py "03-15" = Some [py "Kristoffer"; py "Christoffer"]
  ∧ ∃ row month d names_cell,
      row ∈ rows_of page_kristoffer ∧ dated row month d names_cell
      ∧ py "03-15" = date_key month d
      ∧ [py "Kristoffer"; py "Christoffer"] = recorded (py "03-15") names_cell.
Proof.
  assert (Hrun : parse_tables page_kristoffer = Return table_kristoffer)
    by by_computation.
  assert (Hk : table_kristoffer !! py "03-15"
               = Some [py "Kristoffer"; py "Christoffer"]) by by_computation.
  exact (conj Hrun (conj Hk (table_entries_come_from_rows _ _ _ _ Hrun Hk))).
Defined.

Lemma names_are_trimmed_fragments_witness :
  parse_tables page_kristoffer = Return table_kristoffer
  ∧ table_kristoffer !! py "03-15" = Some [py "Kristoffer"; py "Christoffer"]
  ∧ py "Christoffer" ∈ [py "Kristoffer"; py "Christoffer"]
  ∧ py "Christoffer" ≠ []
  ∧ strip (py "Christoffer") = py "Christoffer"
  ∧ (44 ∉ py "Christoffer").
Proof.
  assert (Hrun : parse_tables page_kristoffer = Return table_kristoffer)
    by by_computation.
  assert (Hk : table_kristoffer !! py "03-15"
               = Some [py "Kristoffer"; py "Christoffer"]) by by_computation.
  assert (Hname : py "Christoffer" ∈ [py "Kristoffer"; py "Christoffer"])
    by decide_it.
  exact (conj Hrun (conj Hk (conj Hname
    (names_are_trimmed_fragments _ _ _ _ _ Hrun Hk Hname)))).
Defined.

Lemma force_empty_dates_hold_no_names_witness :
  parse_tables page_svea = Return table_svea
  ∧ py "01-01" ∈ EMPTY_DATES
  ∧ default [] (table_svea !! py "01-01") = [].
Proof.
  assert (Hrun : parse_tables page_svea = Return table_svea) by by_computation.
  assert (Hk : py "01-01" ∈ EMPTY_DATES) by decide_it.
  exact (conj Hrun (conj Hk (force_empty_dates_hold_no_names _ _ _ Hrun Hk))).
Defined.

Lemma junk_dates_hold_no_annotations_witness :
  parse_tables page_valborg = Return table_valborg
  ∧ py "04-30" ∈ DATES_WITH_JUNK
  ∧ table_valborg !! py "04-30" = Some [py "Mariana"]
  ∧ Forall (λ name, ¬ parenthesized name) [py "Mariana"].
Proof.
  assert (Hrun : parse_tables page_valborg = Return table_valborg)
    by by_computation.
  assert (Hk : py "04-30" ∈ DATES_WITH_JUNK) by decide_it.
  assert (Hnames : table_valborg !! py "04-30" = Some [py "Mariana"])
    by by_computation.
  exact (conj Hrun (conj Hk (conj Hnames
    (junk_dates_hold_no_annotations _ _ _ _ Hrun Hk Hnames)))).
Defined.


Lemma get_date_answers_the_days_of_2000_witness :
  ((1 ≤ 2 ≤ 12)%Z ∧ (1 ≤ 29 ≤ days_in_month 2000 2)%Z)
  ∧ get_date table_svea 2 29 = Return (get_today table_svea 2 29)
  ∧ is_DateKey (date (get_today table_svea 2 29)) = true
  ∧ ¬ ((1 ≤ 2 ≤ 12)%Z ∧ (1 ≤ 30 ≤ days_in_month 2000 2)%Z)
  ∧ ∃ detail, get_date table_svea 2 30 = Raise (HTTPException 400 detail).
Proof.
  assert (Hok : (1 ≤ 2 ≤ 12)%Z ∧ (1 ≤ 29 ≤ days_in_month 2000 2)%Z)
    by (vm_compute; intuition discriminate).
  assert (Hbad : ¬ ((1 ≤ 2 ≤ 12)%Z ∧ (1 ≤ 30 ≤ days_in_month 2000 2)%Z))
    by (vm_compute; intuition).
  destruct (proj1 (get_date_answers_the_days_of_2000 table_svea 2 29) Hok)
    as [Hget Hkey].
  exact (conj Hok (conj Hget (conj Hkey (conj Hbad
    (proj2 (get_date_answers_the_days_of_2000 table_svea 2 30) Hbad))))).
Defined.

Lemma today_is_a_date_get_date_takes_witness :
  datetime 2024 2 29 = Return (2024, 2, 29)%Z
  ∧ get_date table_svea 2 29 = Return (get_today table_svea 2 29).
Proof.
  assert (Hnow : datetime 2024 2 29 = Return (2024, 2, 29)%Z) by by_computation.
  exact (conj Hnow (today_is_a_date_get_date_takes table_svea _ _ _ _ Hnow)).
Defined.

Lemma get_date_serves_the_last_row_witness :
  parse_tables page_christel = Return table_christel
  ∧ rows_of page_christel = [row_kristoffer] ++ row_christel :: []
  ∧ dated row_christel (two_digits 3) 15 (py "Christel")
  ∧ (1 ≤ 3 ≤ 12)%Z
  ∧ (1 ≤ 15 ≤ days_in_month 2000 3)%Z
  ∧ get_date table_christel 3 15
    = Return {| date := date_key (two_digits 3) 15;
                names := recorded (date_key (two_digits 3) 15) (py "Christel");
                count := length (recorded (date_key (two_digits 3) 15)
                                          (py "Christel")) |}.
Proof.
  assert (Hrun : parse_tables page_christel = Return table_christel)
    by by_computation.
  assert (Hrows : rows_of page_christel = [row_kristoffer] ++ row_christel :: [])
    by by_computation.
  assert (Hrow : dated row_christel (two_digits 3) 15 (py "Christel")).
  { exists (py "15 mars"), [], (py "15"), (py "mars").
    repeat split; by_computation. }
  assert (Hm : (1 ≤ 3 ≤ 12)%Z) by lia.
  assert (Hd : (1 ≤ 15 ≤ days_in_month 2000 3)%Z)
    by (vm_compute; intuition discriminate).
  refine (conj Hrun (conj Hrows (conj Hrow (conj Hm (conj Hd
    (get_date_serves_the_last_row _ _ _ _ _ _ _ _ Hrun Hrows Hrow _ Hm Hd)))))).
  intros later month' d' nc' Hin. by apply elem_of_nil in Hin.
Defined.

Lemma get_date_of_a_force_empty_date_witness :
  parse_tables page_svea = Return table_svea
  ∧ get_date table_svea 1 1 = Return (get_today table_svea 1 1)
  ∧ date (get_today table_svea 1 1) ∈ EMPTY_DATES
  ∧ names (get_today table_svea 1 1) = []
  ∧ count (get_today table_svea 1 1) = 0%nat.
Proof.
  assert (Hrun : parse_tables page_svea = Return table_svea) by by_computation.
  assert (Hget : get_date table_svea 1 1 = Return (get_today table_svea 1 1))
    by by_computation.
  assert (Hempty : date (get_today table_svea 1 1) ∈ EMPTY_DATES) by decide_it.
  exact (conj Hrun (conj Hget (conj Hempty
    (get_date_of_a_force_empty_date _ _ _ _ _ Hrun Hget Hempty)))).
Defined.

Lemma get_month_keeps_the_entries_of_the_month_witness :
  (1 ≤ 3 ≤ 12)%Z
  ∧ (∃ answer,
       get_month table_kristoffer 3 = Return answer
       ∧ ByMonth.month answer = 3%Z
       ∧ ByMonth.count answer = size (ByMonth.namedays answer)
       ∧ ByMonth.namedays answer ⊆ table_kristoffer
       ∧ ∀ k, k ∈ dom (ByMonth.namedays answer)
              ↔ k ∈ dom table_kristoffer
                ∧ is_Some (startswith k (format_02d 3 ++ py "-")))
  ∧ ¬ (1 ≤ 13 ≤ 12)%Z
  ∧ get_month table_kristoffer 13
    = Raise (HTTPException 400 "Month must be between 1 and 12").
Proof.
  assert (Hin : (1 ≤ 3 ≤ 12)%Z) by lia.
  assert (Hout : ¬ (1 ≤ 13 ≤ 12)%Z) by lia.
  exact (conj Hin
    (conj (proj1 (get_month_keeps_the_entries_of_the_month table_kristoffer 3) Hin)
       (conj Hout
          (proj2 (get_month_keeps_the_entries_of_the_month table_kristoffer 13)
             Hout)))).
Defined.

Lemma every_key_is_in_one_month_witness :
  parse_tables page_kristoffer = Return table_kristoffer
  ∧ py "03-15" ∈ dom table_kristoffer
  ∧ ∃ m, (1 ≤ m ≤ 12)%Z
         ∧ ∀ month answer,
             get_month table_kristoffer month = Return answer →
             (py "03-15" ∈ dom (ByMonth.namedays answer) ↔ month = m).
Proof.
  assert (Hrun : parse_tables page_kristoffer = Return table_kristoffer)
    by by_computation.
  assert (Hk : py "03-15" ∈ dom table_kristoffer) by decide_it.
  exact (conj Hrun (conj Hk (every_key_is_in_one_month _ _ _ _ Hrun Hk))).
Defined.


Lemma successful_refresh_is_served_and_stored_witness :
  refresh_namedays (py "hemlig") (Return page_christel) (py "hemlig") serving
  = (Return {| status := "success"; total_dates := 1; total_names := 1 |},
     {| NAMEDAYS := table_christel; kv := None; json_file := Some table_christel |})
  ∧ ∃ html data,
      Return page_christel = Return html
      ∧ parse_tables html = Return data
      ∧ data ≠ ∅.
Proof.
  assert (Hrun : refresh_namedays (py "hemlig") (Return page_christel)
                   (py "hemlig") serving
    = (Return {| status := "success"; total_dates := 1; total_names := 1 |},
       {| NAMEDAYS := table_christel; kv := None;
          json_file := Some table_christel |})) by by_computation.
  split; [exact Hrun|].
  destruct (successful_refresh_is_served_and_stored _ _ _ _ _ _ Hrun)
    as (html & data & Hpage & Hdata & Hne & _).
  exists html, data. exact (conj Hpage (conj Hdata Hne)).
Defined.

Lemma refresh_checks_the_key_first_witness :
  refresh_namedays [] (Return page_christel) [] serving
  = (Raise (HTTPException 500 "API key not configured on server"), serving)
  ∧ py "hemlig" ≠ []
  ∧ py "gissning" ≠ py "hemlig"
  ∧ refresh_namedays (py "hemlig") (Return page_christel) (py "gissning") serving
    = (Raise (HTTPException 401 "Invalid API key"), serving).
Proof.
  assert (Hkey : py "hemlig" ≠ []) by by_computation.
  assert (Hx : py "gissning" ≠ py "hemlig") by by_computation.
  exact (conj
    (proj1 (refresh_checks_the_key_first [] (Return page_christel) [] serving)
       eq_refl)
    (conj Hkey (conj Hx
       (proj2 (refresh_checks_the_key_first (py "hemlig") (Return page_christel)
                 (py "gissning") serving) Hkey Hx)))).
Defined.


(** A name asked for in capitals is found; one the table does not have
    is not. *)
Example get_name_ignores_case :
  get_name table_kristoffer (py "CHRISTOFFER")
  = ByName.Found {| ByName.asked := py "CHRISTOFFER";
                    ByName.dates := [{| ByName.date := py "03-15";
                                        ByName.name := py "Christoffer" |}];
                    ByName.count := 1 |}
  ∧ get_name table_kristoffer (py "Kristina")
    = ByName.NotFound (py "Name 'Kristina' not found in nameday calendar").
Proof. split; by_computation. Qed.
